(** * Password generator API: generation and strength scoring

    A shallow embedding of the two functions of [src/Api/api.js] that carry
    the logic of the service, [generatePassword] and
    [calculatePasswordStrength], together with the pieces of the JavaScript
    runtime they rely on (strings, regular-expression tests, property reads
    on an object literal, [Math.random], [try]/[catch]), and of the two
    routes that call them, [GET /generate] and [POST /generate].

    Modelling conventions
    - a JavaScript string is a sequence of code units; every string the
      program builds is drawn from the preset alphabets, so code units are
      modelled as [ascii] (code units 0..255) and strings as [string];
    - a JavaScript number holding an integer is a [Z]; the request's
      [length] is an integer, as the query handler's [parseInt] yields;
      [generatePassword_any] is the same function on every value a
      request can hold, and [generatePassword_any_typed] relates the two;
    - [Math.random()] is read from an explicit stream of draws that is
      threaded through the sampling loop;
    - [throw] and the engine's [TypeError] are values of an error monad,
      and [try]/[catch] is a case analysis on its result;
    - [new Date()] is read from an explicit stream of clock readings;
    - a route takes the parsed request and returns the status and the
      body it hands to [res.status(...).json(...)]; the values of a query
      are strings, those of a posted body integers, a string and a
      boolean. *)

From Stdlib Require Import ZArith NArith List String Ascii Bool Lia.
From Stdlib Require Import Numbers.DecimalString.
From Stdlib Require QArith Qround.
Import ListNotations.

Open Scope string_scope.
Open Scope Z_scope.

(* ================================================================== *)
(** ** Strings of the runtime *)

Module JsString.

(** [s.length] *)
Definition len (s : string) : Z := Z.of_nat (String.length s).

(** [s.charAt(i)]: the one-character string at index [i], or the empty
    string when [i] is out of range. *)
Definition charAt (s : string) (i : nat) : string :=
  match String.get i s with
  | Some c => String c EmptyString
  | None => EmptyString
  end.

Definition code (c : ascii) : N := N_of_ascii c.

Definition in_range (lo hi c : ascii) : bool :=
  (code lo <=? code c)%N && (code c <=? code hi)%N.

(** Lower-case mapping of one code unit below 256: [A]-[Z], and the
    Latin-1 capitals U+00C0..U+00DE except the multiplication sign
    U+00D7, move up by 32; every other code unit is unchanged. *)
Definition lower_char (c : ascii) : ascii :=
  let n := code c in
  if ((65 <=? n) && (n <=? 90))%N then ascii_of_N (n + 32)
  else if ((192 <=? n) && (n <=? 222) && negb (n =? 215))%N
       then ascii_of_N (n + 32)
  else c.

(** [s.toLowerCase()] *)
Fixpoint toLowerCase (s : string) : string :=
  match s with
  | EmptyString => EmptyString
  | String c s' => String (lower_char c) (toLowerCase s')
  end.

(** [xs.join(sep)] *)
Fixpoint join (sep : string) (xs : list string) : string :=
  match xs with
  | [] => EmptyString
  | [x] => x
  | x :: rest => x ++ sep ++ join sep rest
  end.

(** [String(n)] of an integer, as a template literal prints it. *)
Definition of_int (n : Z) : string := NilZero.string_of_int (Z.to_int n).

End JsString.

(* ================================================================== *)
(** ** Regular expressions

    The fragment of the pattern language the source uses: literal
    characters (among them the escaped backslash), the dot, character
    classes, concatenation, alternation, a capturing group and the
    quantifier [{n,}] on a single character.  Matching is backtracking,
    written as a list of successes: [run r s] lists, in the order the
    engine tries them, the rests of [s] after each way of matching [r]
    at the start of [s]. *)

Module RegExp.
Import JsString.

Inductive atom : Type :=
| Lit (c : ascii)
| Dot
| Class (negated : bool) (ranges : list (ascii * ascii)).

Inductive regex : Type :=
| Empty
| Atom (a : atom)
| Cat (r1 r2 : regex)
| Alt (r1 r2 : regex)
| Group (r : regex)
| AtLeast (n : nat) (a : atom).

Definition line_terminator (c : ascii) : bool :=
  (code c =? 10)%N || (code c =? 13)%N.

Definition atom_matches (a : atom) (c : ascii) : bool :=
  match a with
  | Lit x => Ascii.eqb x c
  | Dot => negb (line_terminator c)
  | Class negated ranges =>
      xorb negated (existsb (fun r => in_range (fst r) (snd r) c) ranges)
  end.

(** exactly [n] characters matching [a] *)
Fixpoint exactly (a : atom) (n : nat) (s : string) : option string :=
  match n with
  | O => Some s
  | S n' =>
      match s with
      | String c s' => if atom_matches a c then exactly a n' s' else None
      | EmptyString => None
      end
  end.

(** zero or more characters matching [a], the longest run first *)
Fixpoint many (a : atom) (s : string) : list string :=
  match s with
  | String c s' => if atom_matches a c then many a s' ++ [s] else [s]
  | EmptyString => [s]
  end.

Fixpoint run (r : regex) (s : string) : list string :=
  match r with
  | Empty => [s]
  | Atom a =>
      match s with
      | String c s' => if atom_matches a c then [s'] else []
      | EmptyString => []
      end
  | Cat r1 r2 => flat_map (run r2) (run r1 s)
  | Alt r1 r2 => run r1 s ++ run r2 s
  | Group r' => run r' s
  | AtLeast n a =>
      match exactly a n s with
      | Some s' => many a s'
      | None => []
      end
  end.

Definition matches_here (r : regex) (s : string) : bool :=
  match run r s with
  | [] => false
  | _ :: _ => true
  end.

(** [r.test(s)]: a match starting at some index of [s], the end of the
    string included. *)
Fixpoint test (r : regex) (s : string) : bool :=
  matches_here r s ||
  match s with
  | EmptyString => false
  | String _ s' => test r s'
  end.

(** the pattern that spells a word out, character by character *)
Fixpoint word (w : string) : regex :=
  match w with
  | EmptyString => Empty
  | String c EmptyString => Atom (Lit c)
  | String c w' => Cat (Atom (Lit c)) (word w')
  end.

(** [w1|w2|...|wn] *)
Fixpoint alternatives (ws : list string) : regex :=
  match ws with
  | [] => Empty
  | [w] => word w
  | w :: ws' => Alt (word w) (alternatives ws')
  end.

(** [s.replace(/[...]/g, '')] for a pattern that is one character
    class: every character the class matches is deleted. *)
Fixpoint delete_all (a : atom) (s : string) : string :=
  match s with
  | EmptyString => EmptyString
  | String c s' =>
      if atom_matches a c then delete_all a s' else String c (delete_all a s')
  end.

End RegExp.

(* ================================================================== *)
(** ** The strength scorer: [calculatePasswordStrength] *)

Import JsString RegExp.

Inductive StrengthLevel : Type :=
| very_weak | weak | moderate | strong | very_strong.

Record Strength : Type := mkStrength {
  score : Z;
  level : StrengthLevel;
  feedback : list string
}.

(** The patterns of the character variety checks. *)
Definition lowercase_re : regex := Atom (Class false [("a", "z")]%char).
Definition uppercase_re : regex := Atom (Class false [("A", "Z")]%char).
Definition digit_re : regex := Atom (Class false [("0", "9")]%char).
Definition special_re : regex :=
  Atom (Class true [("A", "Z"); ("a", "z"); ("0", "9")]%char).

(** The pattern of the repetition check as the source spells it.  In a
    regular-expression literal the two characters [\\] are an escaped
    backslash, so what follows the group is a literal backslash and then
    the character [1] quantified by [{2,}]: the pattern holds no
    back-reference. *)
Definition repetition_re : regex :=
  Cat (Group (Atom Dot)) (Cat (Atom (Lit "\"%char)) (AtLeast 2 (Lit "1"%char))).

(** The runs the sequential check lists. *)
Definition sequential_runs : list string :=
  ["abc"; "bcd"; "cde"; "123"; "234"; "345"; "456"; "567"; "678"; "789"].

Definition sequential_re : regex := alternatives sequential_runs.

(** [xs.push(x)] *)
Definition push {A : Type} (xs : list A) (x : A) : list A := (xs ++ [x])%list.

(** Lines 139-160: the length and character variety checks, on the
    accumulator [score] and the array [feedback]. *)
Definition variety_checks (password : string) : Z * list string :=
  let score := 0 in
  let feedback := [] in
  (* Length check *)
  let '(score, feedback) :=
    if 8 <=? len password then (score + 20, feedback)
    else (score, push feedback "Password should be at least 8 characters long") in
  let score := if 12 <=? len password then score + 10 else score in
  let score := if 16 <=? len password then score + 10 else score in
  (* Character variety checks *)
  let '(score, feedback) :=
    if test lowercase_re password then (score + 10, feedback)
    else (score, push feedback "Add lowercase letters") in
  let '(score, feedback) :=
    if test uppercase_re password then (score + 10, feedback)
    else (score, push feedback "Add uppercase letters") in
  let '(score, feedback) :=
    if test digit_re password then (score + 10, feedback)
    else (score, push feedback "Add numbers") in
  let '(score, feedback) :=
    if test special_re password then (score + 20, feedback)
    else (score, push feedback "Add special characters") in
  (score, feedback).

(** Line 163: the repetition penalty. *)
Definition repetition_penalty (password : string) (score : Z) : Z :=
  if test repetition_re password then score - 10 else score.

(** Lines 166-168: the sequential characters penalty. *)
Definition sequential_penalty (password : string) (score : Z) : Z :=
  if test sequential_re (toLowerCase password) then score - 5 else score.

(** Lines 170-173: the level of a score. *)
Definition strengthLevel (score : Z) : StrengthLevel :=
  if 80 <=? score then very_strong
  else if 60 <=? score then strong
  else if 40 <=? score then moderate
  else if 20 <=? score then weak
  else very_weak.

(** The accumulator [score] as it stands when the level is computed and
    the result is assembled. *)
Definition additive_score (password : string) : Z :=
  let '(score, _) := variety_checks password in
  let score := repetition_penalty password score in
  sequential_penalty password score.

Definition calculatePasswordStrength (password : string) : Strength :=
  let '(score, feedback) := variety_checks password in
  let score := repetition_penalty password score in
  let score := sequential_penalty password score in
  let strengthLevel := strengthLevel score in
  {| score := Z.max 0 (Z.min 100 score);
     level := strengthLevel;
     feedback := feedback |}.

(** *** The scorer's table, in the words of its documentation *)

(** Some character occurs three or more times in a row. *)
Fixpoint repeated_three_times (s : string) : bool :=
  match s with
  | String c1 ((String c2 (String c3 _)) as s') =>
      (Ascii.eqb c1 c2 && Ascii.eqb c2 c3) || repeated_three_times s'
  | _ => false
  end.

(** Three characters form an ascending run of [abc...z] or of [123...9]:
    each is the successor of the one before, and all three are lower-case
    letters or all three are digits from 1 to 9. *)
Definition ascending_triple (c1 c2 c3 : ascii) : bool :=
  (code c2 =? code c1 + 1)%N && (code c3 =? code c2 + 1)%N &&
  ((in_range "a" "z" c1 && in_range "a" "z" c3) ||
   (in_range "1" "9" c1 && in_range "1" "9" c3)).

Fixpoint ascending_run_from (s : string) : bool :=
  match s with
  | String c1 ((String c2 (String c3 _)) as s') =>
      ascending_triple c1 c2 c3 || ascending_run_from s'
  | _ => false
  end.

(** The string holds such a run somewhere, letter case ignored. *)
Definition has_ascending_run (s : string) : bool :=
  ascending_run_from (toLowerCase s).

(* ================================================================== *)
(** ** The preset table: [PASSWORD_CONFIGS] *)

Record PasswordConfig : Type := mkConfig {
  characters : string;
  defaultLength : Z;
  maxLength : Z
}.

Definition simple : PasswordConfig :=
  {| characters := "abcdefghijklmnopqrstuvwxyz0123456789";
     defaultLength := 8;
     maxLength := 50 |}.

Definition standard : PasswordConfig :=
  {| characters :=
       "abcdefghijklmnopqrstuvwxyzABCDEFGHIJKLMNOPQRSTUVWXYZ0123456789";
     defaultLength := 12;
     maxLength := 100 |}.

Definition complex : PasswordConfig :=
  {| characters :=
       "abcdefghijklmnopqrstuvwxyzABCDEFGHIJKLMNOPQRSTUVWXYZ0123456789@#$%&*!?+=";
     defaultLength := 16;
     maxLength := 100 |}.

Definition secure : PasswordConfig :=
  {| characters :=
       "abcdefghijklmnopqrstuvwxyzABCDEFGHIJKLMNOPQRSTUVWXYZ0123456789@#$%&*!?+=[]{}()<>";
     defaultLength := 20;
     maxLength := 100 |}.

(** The object literal, its own properties in insertion order. *)
Definition PASSWORD_CONFIGS : list (string * PasswordConfig) :=
  [ ("simple", simple); ("standard", standard);
    ("complex", complex); ("secure", secure) ].

(** ** Property reads on the table

    [PASSWORD_CONFIGS] is an ordinary object, so a read [PASSWORD_CONFIGS[key]]
    that finds no own property goes on to its prototype, [Object.prototype]. *)

Module JsObject.

(** What a read of the table yields. *)
Inductive value : Type :=
| Config (c : PasswordConfig)   (* one of the table's own entries *)
| Inherited (key : string)      (* a member of [Object.prototype] *)
| Undefined.

(** The property names of [Object.prototype]; each holds a function, and
    [__proto__] yields [Object.prototype] itself. *)
Definition Object_prototype_keys : list string :=
  [ "constructor"; "hasOwnProperty"; "isPrototypeOf"; "propertyIsEnumerable";
    "toLocaleString"; "toString"; "valueOf"; "__proto__";
    "__defineGetter__"; "__defineSetter__";
    "__lookupGetter__"; "__lookupSetter__" ].

Fixpoint own (table : list (string * PasswordConfig)) (key : string)
  : option PasswordConfig :=
  match table with
  | [] => None
  | (k, c) :: rest => if String.eqb k key then Some c else own rest key
  end.

(** [table[key]] *)
Definition get (table : list (string * PasswordConfig)) (key : string) : value :=
  match own table key with
  | Some c => Config c
  | None =>
      if existsb (String.eqb key) Object_prototype_keys
      then Inherited key
      else Undefined
  end.

(** [Object.keys(table)] *)
Definition keys (table : list (string * PasswordConfig)) : list string :=
  map fst table.

(** Objects and functions are truthy, [undefined] is not. *)
Definition truthy (v : value) : bool :=
  match v with
  | Undefined => false
  | _ => true
  end.

(** [v.maxLength] of a truthy [v]; [None] stands for [undefined], which
    is what the members of [Object.prototype] yield. *)
Definition get_maxLength (v : value) : option Z :=
  match v with
  | Config c => Some (maxLength c)
  | _ => None
  end.

(** [v.characters] of a truthy [v], likewise. *)
Definition get_characters (v : value) : option string :=
  match v with
  | Config c => Some (characters c)
  | _ => None
  end.

(** [n > m] where [m] may be [undefined]: the comparison with
    [undefined] is a comparison with [NaN], hence false. *)
Definition gt (n : Z) (m : option Z) : bool :=
  match m with
  | Some m' => m' <? n
  | None => false
  end.

(** [m] interpolated in a template literal. *)
Definition show (m : option Z) : string :=
  match m with
  | Some m' => of_int m'
  | None => "undefined"
  end.

End JsObject.

(* ================================================================== *)
(** ** Randomness: [Math.random] *)

Module JsMath.

(** The generator behind [Math.random]: the stream of its future draws.
    A draw [u] stands for the number [(u mod 2^53) / 2^53] of [[0, 1)]. *)
Definition draws : Type := nat -> N.

Definition resolution : Z := 2 ^ 53.

(** [Math.random()]: the next draw, and the generator after it. *)
Definition Math_random (g : draws) : Z * draws :=
  (Z.of_N (g O) mod resolution, fun i => g (S i)).

(** [Math.floor(u * n)] for a draw [u] and an integer [n]; the product
    is taken exactly.  The engine rounds the product of the two doubles,
    so for a draw at the very edge of a bucket its index can be the next
    one; that rounding is not modelled. *)
Definition Math_floor_times (u : Z) (n : Z) : Z := (u * n) / resolution.

End JsMath.

(* ================================================================== *)
(** ** Exceptions and the generator's state *)

Module Js.
Import JsMath.

(** What a [throw] or the engine raises.  [Error] carries the message
    given to [new Error]; [TypeError] is the engine's, for a property
    read on [undefined], with the message Node prints. *)
Inductive thrown : Type :=
| Error (message : string)
| TypeError (message : string).

(** [error.message] *)
Definition message_of (e : thrown) : string :=
  match e with
  | Error m => m
  | TypeError m => m
  end.

(** A computation that may throw and may draw random numbers. *)
Definition M (A : Type) : Type := draws -> (thrown + A) * draws.

Definition ret {A : Type} (a : A) : M A := fun g => (inr a, g).

Definition throw {A : Type} (e : thrown) : M A := fun g => (inl e, g).

Definition bind {A B : Type} (c : M A) (k : A -> M B) : M B :=
  fun g =>
    match c g with
    | (inl e, g') => (inl e, g')
    | (inr a, g') => k a g'
    end.

(** The generator's next number. *)
Definition random : M Z := fun g => let '(u, g') := Math_random g in (inr u, g').

(** A read of property [prop] on a value that may be [undefined]. *)
Definition read {A : Type} (prop : string) (v : option A) : M A :=
  match v with
  | Some a => ret a
  | None =>
      throw (TypeError
        ("Cannot read properties of undefined (reading '" ++ prop ++ "')"))
  end.

End Js.

Import JsMath Js JsObject.

Notation "x <- c ;; k" := (bind c (fun x => k))
  (at level 61, c at next level, right associativity).
Notation "c ;; k" := (bind c (fun _ => k))
  (at level 61, right associativity).

(* ================================================================== *)
(** ** The generator: [generatePassword] *)

Record Meta : Type := mkMeta {
  generator : string;
  version : string;
  timestamp : string
}.

Record Data : Type := mkData {
  d_password : string;
  d_length : Z;
  d_type : string;
  d_strength : Strength;
  d_excludedAmbiguous : bool
}.

Record ErrorInfo : Type := mkErrorInfo {
  message : string;
  code : string
}.

(** The object [generatePassword] returns: [data] is present on the
    success branch, [error] on the other. *)
Record Envelope : Type := mkEnvelope {
  success : bool;
  data : option Data;
  error : option ErrorInfo;
  meta : Meta
}.

(** The class [[0O1Il]] of line 87. *)
Definition ambiguous : atom :=
  Class false [("0", "0"); ("O", "O"); ("1", "1"); ("I", "I"); ("l", "l")]%char.

(** Line 73. *)
Definition invalid_type_message : string :=
  "Invalid password type. Available types: " ++ join ", " (keys PASSWORD_CONFIGS).

(** Line 80. *)
Definition invalid_length_message (maxLength : option Z) : string :=
  "Password length must be between 4 and " ++ show maxLength ++ " characters".

(** Lines 94-97: the loop [for (let i = 0; i < length; i++)], [n] being
    the iterations that remain; for an integer [length] the loop runs
    [Z.to_nat length] times, that is not at all when [length] is not
    positive. *)
Fixpoint sample (characters : string) (charactersLength : Z) (n : nat)
  (password : string) : M string :=
  match n with
  | O => ret password
  | S n' =>
      u <- random ;;
      let randomIndex := Math_floor_times u charactersLength in
      sample characters charactersLength n'
        (password ++ charAt characters (Z.to_nat randomIndex))
  end.

(** Lines 71-110: the body of the [try] block, up to the data of the
    result. *)
Definition generate (length : Z) (type : string) (excludeAmbiguous : bool)
  : M Data :=
  (* Validate inputs *)
  (if negb (truthy (get PASSWORD_CONFIGS type))
   then throw (Error invalid_type_message) else ret tt) ;;
  let config := get PASSWORD_CONFIGS type in
  let maxLength := get_maxLength config in
  (if (length <? 4) || gt length maxLength
   then throw (Error (invalid_length_message maxLength)) else ret tt) ;;
  let characters := get_characters config in
  (* Remove ambiguous characters if requested *)
  characters <-
    (if excludeAmbiguous
     then (s <- read "replace" characters ;; ret (Some (delete_all ambiguous s)))
     else ret characters) ;;
  (* Generate password *)
  let password := "" in
  chars <- read "length" characters ;;
  let charactersLength := len chars in
  password <- sample chars charactersLength (Z.to_nat length) password ;;
  (* Calculate password strength *)
  let strength := calculatePasswordStrength password in
  ret {| d_password := password;
         d_length := len password;
         d_type := type;
         d_strength := strength;
         d_excludedAmbiguous := excludeAmbiguous |}.

Definition the_meta (now : string) : Meta :=
  {| generator := "Arch Password Generator API";
     version := "1.0.0";
     timestamp := now |}.

(** The [try]/[catch] around the body; [now] is what
    [new Date().toISOString()] yields when the result is assembled. *)
Definition generatePassword (length : Z) (type : string)
  (excludeAmbiguous : bool) (now : string) (g : draws) : Envelope * draws :=
  match generate length type excludeAmbiguous g with
  | (inr d, g') =>
      ({| success := true;
          data := Some d;
          error := None;
          meta := the_meta now |}, g')
  | (inl e, g') =>
      ({| success := false;
          data := None;
          error := Some {| message := message_of e; code := "GENERATION_ERROR" |};
          meta := the_meta now |}, g')
  end.

(* ================================================================== *)
(** ** The routes: [GET /generate] and [POST /generate] *)

(** *** [parseInt] and the clock *)

Module JsGlobal.

(** The white space [parseInt] skips, among the code units below 256:
    tab, line feed, vertical tab, form feed, carriage return, space and
    the no-break space. *)
Definition white_space (c : ascii) : bool :=
  let n := JsString.code c in
  ((9 <=? n) && (n <=? 13) || (n =? 32) || (n =? 160))%N.

Fixpoint trimStart (s : string) : string :=
  match s with
  | String c s' => if white_space c then trimStart s' else s
  | EmptyString => s
  end.

(** The value of [c] as a digit of radix [R], if it is one. *)
Definition digit_value (R : Z) (c : ascii) : option Z :=
  let n := Z.of_N (JsString.code c) in
  let v :=
    if (48 <=? n) && (n <=? 57) then Some (n - 48)
    else if (97 <=? n) && (n <=? 122) then Some (n - 87)
    else if (65 <=? n) && (n <=? 90) then Some (n - 55)
    else None in
  match v with
  | Some d => if d <? R then Some d else None
  | None => None
  end.

(** The number the longest prefix of radix-[R] digits of [s] spells,
    [acc] being the digits read so far; [None] when there is no digit. *)
Fixpoint read_digits (R : Z) (s : string) (acc : option Z) : option Z :=
  match s with
  | String c s' =>
      match digit_value R c with
      | Some d =>
          read_digits R s'
            (Some (match acc with Some a => a * R + d | None => d end))
      | None => acc
      end
  | EmptyString => acc
  end.

(** [parseInt(s)] with no radix given: leading white space is skipped, a
    sign is read, the prefix [0x] or [0X] selects radix 16, and the
    longest prefix of digits is the number; [None] stands for [NaN].
    The integer is kept exactly: the code only compares it with 4 and
    with [maxLength], which rounding to a double does not change. *)
Definition parseInt (s : string) : option Z :=
  let input := trimStart s in
  let '(sign, input) :=
    match input with
    | String "-" rest => (-1, rest)
    | String "+" rest => (1, rest)
    | _ => (1, input)
    end in
  let '(R, input) :=
    match input with
    | String "0" (String "x" rest) => (16, rest)
    | String "0" (String "X" rest) => (16, rest)
    | _ => (10, input)
    end in
  match read_digits R input None with
  | Some n => Some (sign * n)
  | None => None
  end.

(** The clock behind [new Date()]: the stream of the readings
    [new Date().toISOString()] will give. *)
Definition clock : Type := nat -> string.

Definition Date_now (t : clock) : string * clock :=
  (t O, fun i => t (S i)).

(** The value of a destructured property, [d] when it is absent. *)
Definition default {A : Type} (v : option A) (d : A) : A :=
  match v with
  | Some x => x
  | None => d
  end.

End JsGlobal.

Import JsGlobal.

(** *** Requests and responses *)

(** [req.query] of [GET /generate], its values strings. *)
Record Query : Type := mkQuery {
  q_length : option string;
  q_type : option string;
  q_exclude_ambiguous : option string
}.

(** [req.body] of [POST /generate]: integers, a string and a boolean. *)
Record PostBody : Type := mkPostBody {
  b_length : option Z;
  b_type : option string;
  b_exclude_ambiguous : option bool;
  b_count : option Z
}.

(** The [data] of a batch response: [passwords[0]] or [passwords]. *)
Inductive BatchData : Type :=
| One (first : option Data)
| Many (passwords : list (option Data)).

(** What [res.json] is given: a result of [generatePassword], an error
    object of a route (with the timestamp of its [meta], if it has one),
    or the batch object. *)
Inductive Payload : Type :=
| Result (result : Envelope)
| RouteError (message code : string) (timestamp : option string)
| Batch (data : BatchData) (count : Z) (meta : Meta).

Record Response : Type := mkResponse {
  status : Z;
  body : Payload
}.

(** Lines 211-241. *)
Definition get_generate (q : Query) (t : clock) (g : draws)
  : Response * clock * draws :=
  let length := default (q_length q) (of_int 12) in
  let type := default (q_type q) "standard" in
  let exclude_ambiguous := default (q_exclude_ambiguous q) "false" in
  let parsedLength := parseInt length in
  let excludeAmbiguous := String.eqb (toLowerCase exclude_ambiguous) "true" in
  match parsedLength with
  | None =>
      let '(now, t) := Date_now t in
      ({| status := 400;
          body := RouteError "Length must be a valid number" "INVALID_LENGTH"
                             (Some now) |}, t, g)
  | Some parsedLength =>
      let '(now, t) := Date_now t in
      let '(result, g) := generatePassword parsedLength type excludeAmbiguous now g in
      if success result
      then ({| status := 200; body := Result result |}, t, g)
      else ({| status := 400; body := Result result |}, t, g)
  end.

(** [passwords[0]] *)
Definition first_of (passwords : list (option Data)) : option Data :=
  match passwords with
  | x :: _ => x
  | [] => None
  end.

(** Lines 264-271: the loop of the batch, [n] being the iterations that
    remain.  A failed call ends the route with its response. *)
Fixpoint generate_batch (n : nat) (length : Z) (type : string)
  (exclude_ambiguous : bool) (passwords : list (option Data))
  (t : clock) (g : draws)
  : (Response + list (option Data)) * clock * draws :=
  match n with
  | O => (inr passwords, t, g)
  | S n' =>
      let '(now, t) := Date_now t in
      let '(result, g) := generatePassword length type exclude_ambiguous now g in
      if success result
      then generate_batch n' length type exclude_ambiguous
             (push passwords (data result)) t g
      else (inl {| status := 400; body := Result result |}, t, g)
  end.

(** Lines 244-283. *)
Definition post_generate (b : PostBody) (t : clock) (g : draws)
  : Response * clock * draws :=
  let length := default (b_length b) 12 in
  let type := default (b_type b) "standard" in
  let exclude_ambiguous := default (b_exclude_ambiguous b) false in
  let count := default (b_count b) 1 in
  (* Validate count *)
  if 10 <? count
  then ({| status := 400;
           body := RouteError "Cannot generate more than 10 passwords at once"
                              "BATCH_LIMIT_EXCEEDED" None |}, t, g)
  else
    match generate_batch (Z.to_nat count) length type exclude_ambiguous [] t g with
    | (inl response, t, g) => (response, t, g)
    | (inr passwords, t, g) =>
        let '(now, t) := Date_now t in
        ({| status := 200;
            body := Batch (if count =? 1 then One (first_of passwords)
                           else Many passwords)
                          (Z.of_nat (List.length passwords))
                          (the_meta now) |}, t, g)
    end.

(* ================================================================== *)
(** ** [generatePassword] on whatever a request can hold

    The routes hand [generatePassword] what they find in the request: the
    values of a parsed JSON body or query string.  Such a value holds no
    function, so nothing of the caller's runs when the code converts it;
    a conversion can still fail, with the engine's [TypeError], on an
    object that has a property of its own called [toString].  The limits
    of an engine (the depth of its stack, the length of a string) are
    not modelled. *)

Module JsValue.

Import QArith_base.

(** A number: a finite one, as the rational it is, [NaN] or an infinity. *)
Inductive number : Type :=
| Finite (q : Q)
| NaN
| PosInfinity
| NegInfinity.

Definition of_Z (n : Z) : number := Finite (inject_Z n).

(** [x < y] on numbers; a comparison with [NaN] is false. *)
Definition lt (x y : number) : bool :=
  match x, y with
  | Finite a, Finite b => negb (Qle_bool b a)
  | Finite _, PosInfinity => true
  | NegInfinity, Finite _ => true
  | NegInfinity, PosInfinity => true
  | _, _ => false
  end.

#[local] Unset Elimination Schemes.

(** What [JSON.parse] and the query parser build, and [undefined] for an
    argument that is not given. *)
Inductive jsvalue : Type :=
| JUndefined
| JNull
| JBool (b : bool)
| JNumber (x : number)
| JString (s : string)
| JArray (items : list jsvalue)
| JObject (fields : list (string * jsvalue)).

#[local] Set Elimination Schemes.

Definition has_own (key : string) (fields : list (string * jsvalue)) : bool :=
  existsb (fun f => String.eqb (fst f) key) fields.

Definition cannot_convert : Js.thrown :=
  Js.TypeError "Cannot convert object to primitive value".

Section Conversions.

(** The two conversions between numbers and strings are the engine's;
    they never fail, and nothing below depends on what they yield. *)
Variable NumberToString : number -> string.
Variable StringToNumber : string -> number.

(** [xs.join(",")] of converted items, the first failure winning. *)
Fixpoint join_items (items : list (Js.thrown + string)) : Js.thrown + string :=
  match items with
  | [] => inr EmptyString
  | [x] => x
  | x :: rest =>
      match x, join_items rest with
      | inl e, _ => inl e
      | inr _, inl e => inl e
      | inr a, inr b => inr (a ++ "," ++ b)
      end
  end.

(** [String(v)], which is also the property key [v] stands for.  An
    array joins its items, [null] and [undefined] among them counting as
    empty; an object is [[object Object]] unless a property of its own
    hides [Object.prototype.toString], and then it has no primitive
    value. *)
Fixpoint ToString (v : jsvalue) : Js.thrown + string :=
  match v with
  | JUndefined => inr "undefined"
  | JNull => inr "null"
  | JBool true => inr "true"
  | JBool false => inr "false"
  | JNumber x => inr (NumberToString x)
  | JString s => inr s
  | JArray items =>
      join_items
        (map (fun item =>
                match item with
                | JUndefined | JNull => inr EmptyString
                | _ => ToString item
                end) items)
  | JObject fields =>
      if has_own "toString" fields then inl cannot_convert
      else inr "[object Object]"
  end.

(** [Number(v)], as a comparison with a number takes it. *)
Definition ToNumber (v : jsvalue) : Js.thrown + number :=
  match v with
  | JUndefined => inr NaN
  | JNull => inr (of_Z 0)
  | JBool true => inr (of_Z 1)
  | JBool false => inr (of_Z 0)
  | JNumber x => inr x
  | JString s => inr (StringToNumber s)
  | JArray _ | JObject _ =>
      match ToString v with
      | inl e => inl e
      | inr s => inr (StringToNumber s)
      end
  end.

End Conversions.

(** Whether a value counts as true in a condition. *)
Definition ToBoolean (v : jsvalue) : bool :=
  match v with
  | JUndefined | JNull => false
  | JBool b => b
  | JNumber (Finite q) => negb (Qeq_bool q (inject_Z 0))
  | JNumber NaN => false
  | JNumber _ => true
  | JString s => negb (String.eqb s "")
  | JArray _ | JObject _ => true
  end.

(** How often [for (let i = 0; i < x; i++)] runs its body: as many
    times as there are counters below [x].  Past [2^53] the counter no
    longer grows, and the loop has no end of its own; [None] says so. *)
Definition iterations (x : number) : option nat :=
  match x with
  | Finite q =>
      if Qle_bool q (inject_Z (2 ^ 53)) then Some (Z.to_nat (Qround.Qceiling q))
      else None
  | NaN | NegInfinity => Some O
  | PosInfinity => None
  end.

(** The value a parameter with a default takes. *)
Definition or_default (v d : jsvalue) : jsvalue :=
  match v with
  | JUndefined => d
  | _ => v
  end.

End JsValue.

Import JsValue.

(** *** Computations that may throw anything, or not end *)

(** What is thrown: an error object, which has a [message], or any other
    value. *)
Inductive raised : Type :=
| ErrorObject (e : thrown)
| Other (v : jsvalue).

Inductive outcome (A : Type) : Type :=
| Returns (a : A)
| Throws (e : raised)
| Diverges.

Arguments Returns {A} a.
Arguments Throws {A} e.
Arguments Diverges {A}.

Definition C (A : Type) : Type := draws -> outcome A * draws.

Definition retC {A : Type} (a : A) : C A := fun g => (Returns a, g).

Definition throwC {A : Type} (e : raised) : C A := fun g => (Throws e, g).

Definition divergeC {A : Type} : C A := fun g => (Diverges, g).

Definition bindC {A B : Type} (c : C A) (k : A -> C B) : C B :=
  fun g =>
    match c g with
    | (Returns a, g') => k a g'
    | (Throws e, g') => (Throws e, g')
    | (Diverges, g') => (Diverges, g')
    end.

(** [try { body } catch (error) { handler }] *)
Definition try_catch {A : Type} (body : C A) (handler : raised -> C A) : C A :=
  fun g =>
    match body g with
    | (Throws e, g') => handler e g'
    | other => other
    end.

(** A computation that throws error objects only. *)
Definition lift {A : Type} (c : M A) : C A :=
  fun g =>
    match c g with
    | (inl e, g') => (Throws (ErrorObject e), g')
    | (inr a, g') => (Returns a, g')
    end.

(** A conversion, which throws if it fails. *)
Definition convert {A : Type} (r : thrown + A) : C A :=
  match r with
  | inl e => throwC (ErrorObject e)
  | inr a => retC a
  end.

Notation "x <~ c ;; k" := (bindC c (fun x => k))
  (at level 61, c at next level, right associativity).

(** [error.message]: the message of an error object; a read on [null]
    or [undefined] throws; an object has the property or not, and any
    other value has none. *)
Definition get_message (error : raised) : C jsvalue :=
  match error with
  | ErrorObject e => retC (JString (message_of e))
  | Other JUndefined | Other JNull =>
      throwC (ErrorObject
                (TypeError "Cannot read properties of undefined (reading 'message')"))
  | Other (JObject fields) =>
      retC (match find (fun f => String.eqb (fst f) "message") fields with
            | Some f => snd f
            | None => JUndefined
            end)
  | Other _ => retC JUndefined
  end.

(** *** The function *)

Record JsData : Type := mkJsData {
  j_password : string;
  j_length : Z;
  j_type : jsvalue;
  j_strength : Strength;
  j_excludedAmbiguous : jsvalue
}.

Record JsErrorInfo : Type := mkJsErrorInfo {
  j_message : jsvalue;
  j_code : string
}.

Record JsEnvelope : Type := mkJsEnvelope {
  j_success : bool;
  j_data : option JsData;
  j_error : option JsErrorInfo;
  j_meta : Meta
}.

Section AnyArguments.

Variable NumberToString : number -> string.
Variable StringToNumber : string -> number.

(** Lines 71-110, the body of the [try] block, on any arguments.  Each
    use of [type] as a key and of [length] in a comparison converts it
    anew. *)
Definition generate_any (length type excludeAmbiguous : jsvalue) : C JsData :=
  (* Validate inputs *)
  key <~ convert (ToString NumberToString type) ;;
  _ <~ (if negb (truthy (get PASSWORD_CONFIGS key))
        then throwC (ErrorObject (Error invalid_type_message)) else retC tt) ;;
  key <~ convert (ToString NumberToString type) ;;
  let config := get PASSWORD_CONFIGS key in
  let maxLength := get_maxLength config in
  n <~ convert (ToNumber NumberToString StringToNumber length) ;;
  too_long <~
    (if lt n (of_Z 4) then retC true
     else (n <~ convert (ToNumber NumberToString StringToNumber length) ;;
           retC (match maxLength with
                 | Some m => lt (of_Z m) n
                 | None => false
                 end))) ;;
  _ <~ (if too_long : bool
        then throwC (ErrorObject (Error (invalid_length_message maxLength)))
        else retC tt) ;;
  let characters := get_characters config in
  (* Remove ambiguous characters if requested *)
  characters <~
    (if ToBoolean excludeAmbiguous
     then (s <~ lift (read "replace" characters) ;;
           retC (Some (delete_all ambiguous s)))
     else retC characters) ;;
  (* Generate password *)
  let password := "" in
  chars <~ lift (read "length" characters) ;;
  let charactersLength := len chars in
  n <~ convert (ToNumber NumberToString StringToNumber length) ;;
  password <~
    (match iterations n with
     | Some count => lift (sample chars charactersLength count password)
     | None => divergeC
     end) ;;
  (* Calculate password strength *)
  let strength := calculatePasswordStrength password in
  retC {| j_password := password;
          j_length := len password;
          j_type := type;
          j_strength := strength;
          j_excludedAmbiguous := excludeAmbiguous |}.

(** Lines 69-131: the defaults of the parameters, the [try] block and
    the [catch] block. *)
Definition generatePassword_any (length type excludeAmbiguous : jsvalue)
  (now : string) : C JsEnvelope :=
  let length := or_default length (JNumber (of_Z 12)) in
  let type := or_default type (JString "standard") in
  let excludeAmbiguous := or_default excludeAmbiguous (JBool false) in
  try_catch
    (d <~ generate_any length type excludeAmbiguous ;;
     retC {| j_success := true;
             j_data := Some d;
             j_error := None;
             j_meta := the_meta now |})
    (fun error =>
       m <~ get_message error ;;
       retC {| j_success := false;
               j_data := None;
               j_error := Some {| j_message := m; j_code := "GENERATION_ERROR" |};
               j_meta := the_meta now |}).

End AnyArguments.

(** The result of the typed function, among the results of this one. *)
Definition any_data (d : Data) : JsData :=
  {| j_password := d_password d;
     j_length := d_length d;
     j_type := JString (d_type d);
     j_strength := d_strength d;
     j_excludedAmbiguous := JBool (d_excludedAmbiguous d) |}.

Definition any_envelope (r : Envelope) : JsEnvelope :=
  {| j_success := success r;
     j_data := option_map any_data (data r);
     j_error :=
       option_map (fun e => {| j_message := JString (message e);
                               j_code := code e |}) (error r);
     j_meta := meta r |}.

(** A request the validation lets through: the name is a preset and the
    length is neither below 4 nor above the preset's maximum. *)
Definition valid_any (NumberToString : number -> string)
  (StringToNumber : string -> number) (length type : jsvalue)
  (config : PasswordConfig) : Prop :=
  exists key n,
    ToString NumberToString type = inr key /\
    In (key, config) PASSWORD_CONFIGS /\
    ToNumber NumberToString StringToNumber length = inr n /\
    lt n (of_Z 4) = false /\ lt (of_Z (maxLength config)) n = false.

(** *** Notions the statements use *)

(** The working alphabet of lines 83-88: the preset's characters, the
    ambiguous ones deleted when the flag is set. *)
Definition resolved_characters (config : PasswordConfig)
  (excludeAmbiguous : bool) : string :=
  if excludeAmbiguous then delete_all ambiguous (characters config)
  else characters config.

(** [c] is one of the characters of [s]. *)
Definition has_char (s : string) (c : ascii) : Prop :=
  In c (list_ascii_of_string s).

(** [w] occurs in [s] as a substring. *)
Definition contains (w s : string) : Prop :=
  exists pre post, s = pre ++ w ++ post.

(** The lower-cased password holds one of the runs the sequential check
    lists. *)
Definition has_listed_run (password : string) : Prop :=
  exists w, In w sequential_runs /\ contains w (toLowerCase password).

(** The character the loop appends when [Math.random()] yields [u]. *)
Definition drawn_char (chars : string) (u : Z) : string :=
  charAt chars (Z.to_nat (Math_floor_times u (len chars))).

(** The characters the next [n] results of [Math.random()] pick from
    [chars], in order. *)
Fixpoint drawn_chars (chars : string) (g : draws) (n : nat) : string :=
  match n with
  | O => ""
  | S n' =>
      let '(u, g') := Math_random g in
      drawn_char chars u ++ drawn_chars chars g' n'
  end.

(** The generator [g] once [n] numbers have been drawn from it. *)
Fixpoint after (n : nat) (g : draws) : draws :=
  match n with
  | O => g
  | S n' => after n' (snd (Math_random g))
  end.

(** The data of a successful call, as the loop builds it. *)
Definition data_of (length : Z) (type : string) (excludeAmbiguous : bool)
  (config : PasswordConfig) (g : draws) : Data :=
  let password :=
    drawn_chars (resolved_characters config excludeAmbiguous) g (Z.to_nat length) in
  {| d_password := password;
     d_length := len password;
     d_type := type;
     d_strength := calculatePasswordStrength password;
     d_excludedAmbiguous := excludeAmbiguous |}.

(** The five ambiguous characters. *)
Definition ambiguous_characters : list ascii := ["0"; "O"; "1"; "I"; "l"]%char.

(** Some character of [s] satisfies [f]. *)
Definition any_char (f : ascii -> bool) (s : string) : bool :=
  existsb f (list_ascii_of_string s).

Definition is_lower (c : ascii) : bool := in_range "a" "z" c.
Definition is_upper (c : ascii) : bool := in_range "A" "Z" c.
Definition is_digit (c : ascii) : bool := in_range "0" "9" c.
Definition is_special (c : ascii) : bool :=
  negb (is_upper c || is_lower c || is_digit c).

(** The generator whose first draw is [u] and whose later draws are
    those of [g]. *)
Definition cons_draw (u : N) (g : draws) : draws :=
  fun i => match i with O => u | S j => g j end.

(** The data of [k] successful calls in a row, each starting where the
    one before left the generator. *)
Fixpoint batch_of (k : nat) (length : Z) (type : string)
  (excludeAmbiguous : bool) (config : PasswordConfig) (g : draws)
  : list (option Data) :=
  match k with
  | O => []
  | S k' =>
      Some (data_of length type excludeAmbiguous config g)
      :: batch_of k' length type excludeAmbiguous config
           (after (Z.to_nat length) g)
  end.

(** The reading of the clock after [n] earlier ones. *)
Fixpoint later (n : nat) (t : clock) : clock :=
  match n with
  | O => t
  | S n' => later n' (snd (Date_now t))
  end.

(* ================================================================== *)
(** * Properties *)

(** ** Strings *)

Section StringFacts.

Lemma append_nil_r (s : string) : s ++ "" = s.
Proof. induction s as [|c s IH]; simpl; [reflexivity | now rewrite IH]. Qed.

Lemma append_assoc (s1 s2 s3 : string) : (s1 ++ s2) ++ s3 = s1 ++ s2 ++ s3.
Proof. induction s1 as [|c s1 IH]; simpl; [reflexivity | now rewrite IH]. Qed.

Lemma length_append (s1 s2 : string) :
  String.length (s1 ++ s2) = (String.length s1 + String.length s2)%nat.
Proof. induction s1 as [|c s1 IH]; simpl; [reflexivity | now rewrite IH]. Qed.

Lemma has_char_append (s1 s2 : string) (c : ascii) :
  has_char (s1 ++ s2) c <-> has_char s1 c \/ has_char s2 c.
Proof.
  unfold has_char. induction s1 as [|a s1 IH]; simpl.
  - tauto.
  - rewrite IH. tauto.
Qed.

Lemma get_some (s : string) (n : nat) :
  (n < String.length s)%nat ->
  exists c, String.get n s = Some c /\ has_char s c.
Proof.
  unfold has_char. revert n.
  induction s as [|a s IH]; simpl; intros n Hn; [lia|].
  destruct n as [|n].
  - exists a. auto.
  - destruct (IH n) as (c & Hc & Hin); [lia|]. exists c. auto.
Qed.

Lemma charAt_in_range (s : string) (n : nat) :
  (n < String.length s)%nat ->
  exists c, charAt s n = String c "" /\ has_char s c.
Proof.
  intros Hn. destruct (get_some s n Hn) as (c & Hc & Hin).
  exists c. unfold charAt. now rewrite Hc.
Qed.

End StringFacts.

(** ** Regular-expression tests *)

Section RegExpFacts.

Lemma matches_here_iff (r : regex) (s : string) :
  matches_here r s = true <-> exists rest, In rest (run r s).
Proof.
  unfold matches_here. destruct (run r s) as [|x l]; split.
  - discriminate.
  - intros [rest []].
  - intros _. exists x. now left.
  - reflexivity.
Qed.

(** [test] finds a match exactly when some suffix matches at its start. *)
Lemma test_iff (r : regex) (s : string) :
  test r s = true <->
  exists pre suf, s = pre ++ suf /\ matches_here r suf = true.
Proof.
  induction s as [|c s IH]; simpl; rewrite orb_true_iff.
  - split.
    + intros [H | H]; [|discriminate]. now exists "", "".
    + intros (pre & suf & E & H). left.
      destruct pre; [simpl in E; now subst suf | discriminate].
  - rewrite IH. split.
    + intros [H | (pre & suf & E & H)].
      * now exists "", (String c s).
      * exists (String c pre), suf. simpl. now rewrite E.
    + intros (pre & suf & E & H). destruct pre as [|a pre]; simpl in E.
      * left. now subst suf.
      * right. injection E as _ E. now exists pre, suf.
Qed.

Lemma run_word (w s rest : string) :
  In rest (run (word w) s) <-> s = w ++ rest.
Proof.
  revert s. induction w as [|c w IH]; intros s.
  - simpl. split; [intros [H | []]; now subst | intros ->; now left].
  - assert (Hc : forall t, In rest (run (Atom (Lit c)) s) /\ t = rest
                           <-> s = String c t /\ t = rest).
    { intros t. simpl. destruct s as [|a s]; [split; intros [H _]; [destruct H | discriminate]|].
      destruct (Ascii.eqb_spec c a) as [->|Hne].
      - split; intros [H E]; subst t.
        + destruct H as [H | []]. now subst.
        + injection H as H. subst. split; [now left | reflexivity].
      - split; intros [H E]; [destruct H|]. injection H as H1 H2. congruence. }
    destruct w as [|c' w].
    + specialize (Hc rest). simpl append. tauto.
    + change (word (String c (String c' w)))
        with (Cat (Atom (Lit c)) (word (String c' w))).
      change (run (Cat (Atom (Lit c)) (word (String c' w))) s)
        with (flat_map (run (word (String c' w))) (run (Atom (Lit c)) s)).
      rewrite in_flat_map. split.
      * intros (t & Ht & Hr). apply IH in Hr. subst t.
        simpl in Ht. destruct s as [|a s]; [destruct Ht|].
        destruct (Ascii.eqb_spec c a) as [->|Hne]; [|destruct Ht].
        destruct Ht as [Ht | []]. now subst.
      * intros ->. exists (String c' w ++ rest). split.
        -- simpl. rewrite Ascii.eqb_refl. now left.
        -- now apply IH.
Qed.

Lemma run_alternatives (ws : list string) (s rest : string) :
  ws <> [] ->
  In rest (run (alternatives ws) s) <-> exists w, In w ws /\ s = w ++ rest.
Proof.
  induction ws as [|w ws IH]; intros Hne; [congruence|].
  destruct ws as [|w' ws].
  - simpl alternatives. rewrite run_word. split.
    + intros ->. exists w. split; [now left | reflexivity].
    + intros (w0 & [<- | []] & E). exact E.
  - change (alternatives (w :: w' :: ws))
      with (Alt (word w) (alternatives (w' :: ws))).
    change (run (Alt (word w) (alternatives (w' :: ws))) s)
      with ((run (word w) s ++ run (alternatives (w' :: ws)) s)%list).
    rewrite in_app_iff, run_word, IH by discriminate. split.
    + intros [E | (w0 & Hin & E)].
      * exists w. split; [now left | exact E].
      * exists w0. split; [now right | exact E].
    + intros (w0 & [<- | Hin] & E); [now left|]. right. now exists w0.
Qed.

(** A test of [w1|...|wn] succeeds exactly on the strings that hold one
    of the words. *)
Lemma test_alternatives (ws : list string) (s : string) :
  ws <> [] ->
  test (alternatives ws) s = true <-> exists w, In w ws /\ contains w s.
Proof.
  intros Hne. rewrite test_iff. unfold contains. split.
  - intros (pre & suf & E & H). apply matches_here_iff in H.
    destruct H as (rest & H). apply run_alternatives in H; [|exact Hne].
    destruct H as (w & Hin & E'). exists w. split; [exact Hin|].
    exists pre, rest. now rewrite E, E'.
  - intros (w & Hin & pre & post & E). exists pre, (w ++ post).
    split; [exact E|]. apply matches_here_iff. exists post.
    apply run_alternatives; [exact Hne|]. now exists w.
Qed.

End RegExpFacts.

(** ** The strength scorer *)

Section Scorer.

Lemma many_not_nil (a : atom) (s : string) : many a s <> [].
Proof.
  destruct s as [|c s]; simpl; [discriminate|].
  destruct (atom_matches a c); [|discriminate].
  intros H. apply app_eq_nil in H. destruct H as [_ H]. discriminate.
Qed.

(** Closes a case in which the pattern finds no match and the string
    does not have the shape either. *)
Ltac no_match :=
  split;
  [ simpl; discriminate
  | let H := fresh "H" in
    let K := fresh "K" in
    intros (? & ? & K & H);
    first [ discriminate H | injection H as H; intros; subst; congruence ] ].

(** Where the repetition pattern matches: at a character other than a
    line terminator that is followed by a backslash and two [1]s. *)
Lemma repetition_re_here (s : string) :
  matches_here repetition_re s = true <->
  exists c rest,
    line_terminator c = false /\ s = String c (String "\" (String "1" (String "1" rest))).
Proof.
  unfold matches_here, repetition_re.
  destruct s as [|c s]; [no_match|].
  cbn [run atom_matches].
  destruct (line_terminator c) eqn:Hc; cbn [negb flat_map]; [no_match|].
  rewrite app_nil_r.
  destruct s as [|b s]; [no_match|].
  destruct (Ascii.eqb_spec "\" b) as [<-|Hb]; cbn [flat_map]; [|no_match].
  rewrite app_nil_r. cbn [exactly atom_matches].
  destruct s as [|d s]; [no_match|].
  destruct (Ascii.eqb_spec "1" d) as [<-|Hd]; [|no_match].
  destruct s as [|e s]; [no_match|].
  destruct (Ascii.eqb_spec "1" e) as [<-|He]; [|no_match].
  pose proof (many_not_nil (Lit "1") s) as Hn.
  destruct (many (Lit "1") s); [congruence|].
  split; [intros _ | reflexivity]. now exists c, s.
Qed.

(** X1.  The repetition check takes its 10 points exactly from the
    passwords that hold, somewhere, a character other than a line
    terminator followed by a backslash and two [1]s. *)
Lemma repetition_penalty_iff (password : string) (score : Z) :
  repetition_penalty password score =
    score - 10 <->
  exists c, line_terminator c = false /\ contains (String c "\11") password.
Proof.
  unfold repetition_penalty.
  destruct (test repetition_re password) eqn:T.
  - split; [intros _ | reflexivity].
    apply test_iff in T. destruct T as (pre & suf & E & H).
    apply repetition_re_here in H. destruct H as (c & rest & Hc & ->).
    exists c. split; [exact Hc|]. now exists pre, rest.
  - split; [lia|]. intros (c & Hc & pre & post & E).
    assert (test repetition_re password = true) as T'; [|congruence].
    apply test_iff. exists pre, (String c "\11" ++ post). split; [exact E|].
    apply repetition_re_here. now exists c, post.
Qed.

Lemma sequential_test_iff (password : string) :
  test sequential_re (toLowerCase password) = true <-> has_listed_run password.
Proof.
  unfold sequential_re, has_listed_run.
  apply test_alternatives. discriminate.
Qed.

Lemma ascending_run_from_cons (c : ascii) (s : string) :
  ascending_run_from s = true -> ascending_run_from (String c s) = true.
Proof.
  destruct s as [|c2 [|c3 s]]; try discriminate.
  intros H. change (ascending_run_from (String c (String c2 (String c3 s))))
    with (ascending_triple c c2 c3 || ascending_run_from (String c2 (String c3 s))).
  rewrite H. apply orb_true_r.
Qed.

Lemma ascending_run_from_append (pre s : string) :
  ascending_run_from s = true -> ascending_run_from (pre ++ s) = true.
Proof.
  intros H. induction pre as [|c pre IH]; simpl; [exact H|].
  now apply ascending_run_from_cons.
Qed.

(** Every run the sequential check lists is an ascending run. *)
Lemma listed_run_is_ascending (password : string) :
  has_listed_run password -> has_ascending_run password = true.
Proof.
  intros (w & Hin & pre & post & E). unfold has_ascending_run. rewrite E.
  apply ascending_run_from_append.
  unfold sequential_runs in Hin. simpl in Hin.
  repeat (destruct Hin as [<- | Hin]; [reflexivity|]). destruct Hin.
Qed.

Lemma strengthLevel_clamp (z : Z) :
  strengthLevel (Z.max 0 (Z.min 100 z)) = strengthLevel z.
Proof.
  unfold strengthLevel.
  repeat match goal with
         | |- context [?a <=? ?b] => destruct (Z.leb_spec a b)
         end; try reflexivity; lia.
Qed.

End Scorer.

(** C1.  A password that repeats a character three or more times in a
    row is to lose 10 points; the scorer does not take them from
    ["aaaa1111"].  The password repeats [a] (and [1]) four times, collects
    the length bonus, the lower-case bonus and the digit bonus for a total
    of 40, the repetition check leaves the 40 as they are, and 40 is the
    score returned: the pattern of the check asks for a backslash and two
    [1]s after a character, not for the character again. *)
Theorem repetition_penalty_missed :
  repeated_three_times "aaaa1111" = true /\
  variety_checks "aaaa1111" =
    (20 + 10 + 10, ["Add uppercase letters"; "Add special characters"]) /\
  repetition_penalty "aaaa1111" 40 = 40 /\
  additive_score "aaaa1111" = 40 /\
  score (calculatePasswordStrength "aaaa1111") = 40.
Proof. repeat split; vm_compute; reflexivity. Qed.

(** C3, as the claim words it, fails on ["def"] and ["xyz"]: both are
    ascending runs of the alphabet, and neither loses the 5 points. *)
Lemma sequential_penalty_skips_def_xyz :
  has_ascending_run "def" = true /\
  sequential_penalty "def" 10 = 10 /\
  additive_score "def" = 10 /\
  has_ascending_run "xyz" = true /\
  sequential_penalty "xyz" 10 = 10 /\
  additive_score "xyz" = 10.
Proof. repeat split; vm_compute; reflexivity. Qed.

(** C3, amended.  The sequential check takes 5 points from the score
    exactly when the lower-cased password holds one of the ten listed
    runs [abc], [bcd], [cde], [123], [234], [345], [456], [567], [678],
    [789] as a substring, and leaves the score as it is otherwise; in
    particular it takes nothing from a password with no ascending run. *)
Theorem sequential_penalty_listed_runs (password : string) (score : Z) :
  (has_listed_run password -> sequential_penalty password score = score - 5) /\
  (~ has_listed_run password -> sequential_penalty password score = score) /\
  (has_ascending_run password = false ->
   sequential_penalty password score = score).
Proof.
  pose proof (sequential_test_iff password) as T.
  pose proof (listed_run_is_ascending password) as A.
  unfold sequential_penalty.
  destruct (test sequential_re (toLowerCase password)).
  - repeat split.
    + intros H. exfalso. apply H, T. reflexivity.
    + intros H. rewrite A in H; [discriminate | now apply T].
  - repeat split. intros H. apply T in H. discriminate.
Qed.

(** C4.  The scorer is defined on every string, and the score it returns
    lies between 0 and 100; the empty string gets the score 0, the level
    [very_weak] and all five pieces of advice. *)
Theorem score_in_range :
  (forall password : string,
     0 <= score (calculatePasswordStrength password) <= 100) /\
  calculatePasswordStrength "" =
    {| score := 0;
       level := very_weak;
       feedback :=
         ["Password should be at least 8 characters long";
          "Add lowercase letters"; "Add uppercase letters"; "Add numbers";
          "Add special characters"] |}.
Proof.
  split; [|reflexivity].
  intros password. unfold calculatePasswordStrength.
  destruct (variety_checks password) as [s f]. cbn [score]. lia.
Qed.

(** C9.  The level returned with a score is the one the thresholds give
    for that score, the highest threshold met winning: [very_strong] from
    80, [strong] from 60, [moderate] from 40, [weak] from 20, [very_weak]
    below.  (The source reads the thresholds off the score before it is
    clamped; the clamped score meets the same thresholds.) *)
Theorem level_of_clamped_score (password : string) :
  let r := calculatePasswordStrength password in
  level r =
    if 80 <=? score r then very_strong
    else if 60 <=? score r then strong
    else if 40 <=? score r then moderate
    else if 20 <=? score r then weak
    else very_weak.
Proof.
  unfold calculatePasswordStrength.
  destruct (variety_checks password) as [s f]. cbn [score level].
  symmetry. apply strengthLevel_clamp.
Qed.

(** *** How far the additive score can move *)

Section ScoreBounds.

Lemma test_atom (a : atom) (s : string) :
  test (Atom a) s = true <-> exists c, has_char s c /\ atom_matches a c = true.
Proof.
  unfold has_char. induction s as [|x s IH].
  - simpl. split; [discriminate | intros (c & [] & _)].
  - cbn [test]. rewrite orb_true_iff, IH. unfold matches_here.
    cbn [run list_ascii_of_string]. destruct (atom_matches a x) eqn:E; split.
    + intros _. exists x. split; [now left | exact E].
    + intros _. now left.
    + intros [H | (c & Hin & Hc)]; [discriminate|].
      exists c. split; [now right | exact Hc].
    + intros (c & [-> | Hin] & Hc); [congruence|]. right. now exists c.
Qed.

Lemma contains_has_char (w s : string) (c : ascii) :
  contains w s -> has_char w c -> has_char s c.
Proof.
  intros (pre & post & ->) H. apply has_char_append. right.
  apply has_char_append. now left.
Qed.

Lemma toLowerCase_has_char (s : string) (c : ascii) :
  has_char (toLowerCase s) c -> exists c0, has_char s c0 /\ lower_char c0 = c.
Proof.
  unfold has_char. induction s as [|x s IH]; simpl; [intros []|].
  intros [H | H].
  - exists x. auto.
  - destruct (IH H) as (c0 & Hin & E). exists c0. auto.
Qed.

(** A character whose lower case is a letter is a letter, and one whose
    lower case is a digit is that digit. *)
Lemma lower_char_class (c0 : ascii) :
  implb (in_range "a" "z" (lower_char c0))
        (in_range "a" "z" c0 || in_range "A" "Z" c0) = true /\
  implb (in_range "0" "9" (lower_char c0)) (in_range "0" "9" c0) = true.
Proof. destruct c0 as [[] [] [] [] [] [] [] []]; split; reflexivity. Qed.

Lemma class_matches (lo hi c : ascii) :
  atom_matches (Class false [(lo, hi)]) c = in_range lo hi c.
Proof. cbn. now rewrite orb_false_r. Qed.

(** The points of the length and variety checks, check by check. *)
Lemma variety_score (password : string) :
  fst (variety_checks password) =
    (if 8 <=? len password then 20 else 0)
    + (if 12 <=? len password then 10 else 0)
    + (if 16 <=? len password then 10 else 0)
    + (if test lowercase_re password then 10 else 0)
    + (if test uppercase_re password then 10 else 0)
    + (if test digit_re password then 10 else 0)
    + (if test special_re password then 20 else 0).
Proof.
  unfold variety_checks.
  destruct (8 <=? len password), (12 <=? len password), (16 <=? len password),
    (test lowercase_re password), (test uppercase_re password),
    (test digit_re password), (test special_re password); reflexivity.
Qed.

(** Where the repetition pattern matches there is a backslash, which is
    a special character, and a digit. *)
Lemma repetition_needs_digit_and_special (password : string) :
  test repetition_re password = true ->
  test digit_re password = true /\ test special_re password = true.
Proof.
  intros T. apply test_iff in T. destruct T as (pre & suf & -> & H).
  apply repetition_re_here in H. destruct H as (c & rest & _ & ->).
  split; apply test_atom.
  - exists "1"%char. split; [|reflexivity].
    apply has_char_append. right. unfold has_char. simpl. auto.
  - exists "\"%char. split; [|reflexivity].
    apply has_char_append. right. unfold has_char. simpl. auto.
Qed.

(** Where a listed run occurs there is a letter or a digit. *)
Lemma sequential_needs_letter_or_digit (password : string) :
  test sequential_re (toLowerCase password) = true ->
  test lowercase_re password = true \/ test uppercase_re password = true \/
  test digit_re password = true.
Proof.
  intros T. apply sequential_test_iff in T. destruct T as (w & Hin & Hw).
  assert (exists c, has_char w c /\
                    (in_range "a" "z" c = true \/ in_range "0" "9" c = true))
    as (c & Hc & Hclass).
  { unfold sequential_runs in Hin. simpl in Hin.
    repeat (destruct Hin as [<- | Hin];
            [eexists; split; [left; reflexivity | cbn; auto]|]).
    destruct Hin. }
  apply (contains_has_char _ _ _ Hw), toLowerCase_has_char in Hc.
  destruct Hc as (c0 & Hin0 & <-).
  destruct (lower_char_class c0) as [L D].
  unfold lowercase_re, uppercase_re, digit_re. rewrite !test_atom.
  destruct Hclass as [E | E].
  - rewrite E in L. cbn [implb] in L. apply orb_true_iff in L.
    destruct L as [L | L]; [left | right; left];
      exists c0; (split; [exact Hin0 | now rewrite class_matches]).
  - rewrite E in D. cbn [implb] in D. right; right.
    exists c0. split; [exact Hin0 | now rewrite class_matches].
Qed.

End ScoreBounds.

(** X2.  The additive score never leaves the range from 0 to 90, so the
    final clamp to [[0, 100]] returns it unchanged. *)
Theorem additive_score_bounds (password : string) :
  0 <= additive_score password <= 90 /\
  score (calculatePasswordStrength password) = additive_score password.
Proof.
  pose proof (variety_score password) as V.
  pose proof (repetition_needs_digit_and_special password) as R.
  pose proof (sequential_needs_letter_or_digit password) as Q.
  unfold additive_score, calculatePasswordStrength.
  destruct (variety_checks password) as [s f]. cbn [fst] in V. cbn [score].
  unfold repetition_penalty, sequential_penalty.
  destruct (test repetition_re password) eqn:TR.
  - destruct (R eq_refl) as [TD TP]. rewrite TD, TP in V.
    destruct (test sequential_re (toLowerCase password));
      repeat match type of V with
             | context [if ?b then _ else _] => destruct b
             end; lia.
  - destruct (test sequential_re (toLowerCase password)) eqn:TS.
    + destruct (Q eq_refl) as [E | [E | E]]; rewrite E in V;
        repeat match type of V with
               | context [if ?b then _ else _] => destruct b
               end; lia.
    + repeat match type of V with
             | context [if ?b then _ else _] => destruct b
             end; lia.
Qed.

(** ** The generator *)

Section Generator.

Lemma sample_eq (chars : string) (n : nat) :
  forall (password : string) (g : draws),
    sample chars (len chars) n password g =
      (inr (password ++ drawn_chars chars g n), after n g).
Proof.
  induction n as [|n IH]; intros password g.
  - simpl. unfold ret. now rewrite append_nil_r.
  - cbn [sample drawn_chars after]. unfold bind at 1. unfold random.
    destruct (Math_random g) as [u g'] eqn:E. cbn [snd].
    rewrite IH. now rewrite append_assoc.
Qed.

(** [Math.random()] yields a number of [[0, 1)]. *)
Lemma Math_random_bounds (g : draws) :
  0 <= fst (Math_random g) < resolution.
Proof. unfold Math_random. cbn [fst]. now apply Z.mod_pos_bound. Qed.

Lemma floor_times_bounds (u : Z) (n : Z) :
  0 <= u < resolution -> 0 < n -> 0 <= Math_floor_times u n < n.
Proof.
  intros B Hn. unfold Math_floor_times.
  assert (0 < resolution) as R by reflexivity.
  split.
  - apply Z.div_pos; [nia | exact R].
  - apply Z.div_lt_upper_bound; [exact R | nia].
Qed.

(** Over a non-empty alphabet every draw appends one character of it. *)
Lemma drawn_char_spec (chars : string) (u : Z) :
  0 <= u < resolution ->
  chars <> "" ->
  exists c, drawn_char chars u = String c "" /\ has_char chars c.
Proof.
  intros Hu Hne. unfold drawn_char. apply charAt_in_range.
  assert (0 < len chars) as Hpos.
  { unfold len. destruct chars; [congruence | simpl String.length; lia]. }
  pose proof (floor_times_bounds u (len chars) Hu Hpos) as B.
  unfold len in *. lia.
Qed.

Lemma drawn_chars_length (chars : string) (n : nat) :
  chars <> "" ->
  forall g, String.length (drawn_chars chars g n) = n.
Proof.
  intros Hne. induction n as [|n IH]; intros g; [reflexivity|].
  cbn [drawn_chars]. pose proof (Math_random_bounds g) as B.
  destruct (Math_random g) as [u g']. cbn [fst] in B.
  destruct (drawn_char_spec chars u B Hne) as (c & -> & _).
  simpl. now rewrite IH.
Qed.

Lemma drawn_chars_has_char (chars : string) (n : nat) (c : ascii) :
  chars <> "" ->
  forall g, has_char (drawn_chars chars g n) c -> has_char chars c.
Proof.
  intros Hne. induction n as [|n IH]; intros g; [intros []|].
  cbn [drawn_chars]. pose proof (Math_random_bounds g) as B.
  destruct (Math_random g) as [u g']. cbn [fst] in B.
  rewrite has_char_append.
  destruct (drawn_char_spec chars u B Hne) as (a & -> & Ha).
  intros [[<- | []] | H]; [exact Ha | now apply IH in H].
Qed.

Lemma own_In (table : list (string * PasswordConfig)) (key : string)
  (c : PasswordConfig) :
  own table key = Some c -> In (key, c) table.
Proof.
  induction table as [|[k c'] table IH]; simpl; [discriminate|].
  destruct (String.eqb_spec k key) as [->|Hne].
  - intros [= ->]. now left.
  - intros H. right. now apply IH.
Qed.

(** The four names are distinct, so each entry is what a read yields. *)
Lemma In_get (type : string) (config : PasswordConfig) :
  In (type, config) PASSWORD_CONFIGS <-> get PASSWORD_CONFIGS type = Config config.
Proof.
  split.
  - intros H. unfold PASSWORD_CONFIGS in H. simpl in H.
    repeat (destruct H as [[= <- <-] | H]; [reflexivity|]). destruct H.
  - unfold get. destruct (own PASSWORD_CONFIGS type) as [c|] eqn:E.
    + intros [= ->]. now apply own_In.
    + destruct (existsb _ _); discriminate.
Qed.

Lemma resolved_characters_not_empty (type : string) (config : PasswordConfig)
  (excludeAmbiguous : bool) :
  In (type, config) PASSWORD_CONFIGS ->
  resolved_characters config excludeAmbiguous <> "".
Proof.
  intros H. unfold PASSWORD_CONFIGS in H. simpl in H.
  repeat (destruct H as [[= <- <-] | H];
          [destruct excludeAmbiguous; vm_compute; discriminate|]).
  destruct H.
Qed.

(** A preset and a length within its bounds: the body returns. *)
Lemma generate_valid (length : Z) (type : string) (excludeAmbiguous : bool)
  (config : PasswordConfig) (g : draws) :
  get PASSWORD_CONFIGS type = Config config ->
  4 <= length <= maxLength config ->
  generate length type excludeAmbiguous g =
    (inr (data_of length type excludeAmbiguous config g),
     after (Z.to_nat length) g).
Proof.
  intros Hget Hlen. unfold generate, data_of, resolved_characters.
  rewrite Hget. cbn [truthy negb get_maxLength get_characters gt].
  replace (length <? 4) with false by (symmetry; apply Z.ltb_ge; lia).
  replace (maxLength config <? length) with false by (symmetry; apply Z.ltb_ge; lia).
  cbn [orb]. unfold bind at 1. unfold ret at 1. unfold bind at 1. unfold ret at 1.
  destruct excludeAmbiguous.
  - unfold bind, read, ret. rewrite sample_eq. reflexivity.
  - unfold bind, read, ret. rewrite sample_eq. reflexivity.
Qed.

(** A preset and a length outside its bounds: the length error. *)
Lemma generate_invalid_length (length : Z) (type : string)
  (excludeAmbiguous : bool) (config : PasswordConfig) (g : draws) :
  get PASSWORD_CONFIGS type = Config config ->
  length < 4 \/ maxLength config < length ->
  generate length type excludeAmbiguous g =
    (inl (Error (invalid_length_message (Some (maxLength config)))), g).
Proof.
  intros Hget Hlen. unfold generate.
  rewrite Hget. cbn [truthy negb get_maxLength get_characters gt].
  replace ((length <? 4) || (maxLength config <? length)) with true.
  - reflexivity.
  - symmetry. apply orb_true_iff. rewrite !Z.ltb_lt. exact Hlen.
Qed.

(** A name the table does not resolve at all: the type error message. *)
Lemma generate_undefined (length : Z) (type : string)
  (excludeAmbiguous : bool) (g : draws) :
  get PASSWORD_CONFIGS type = Undefined ->
  generate length type excludeAmbiguous g = (inl (Error invalid_type_message), g).
Proof. intros Hget. unfold generate. rewrite Hget. reflexivity. Qed.

(** A name found on [Object.prototype]: the type check lets it through,
    and the body throws further on. *)
Lemma generate_inherited (length : Z) (type key : string)
  (excludeAmbiguous : bool) (g : draws) :
  get PASSWORD_CONFIGS type = Inherited key ->
  generate length type excludeAmbiguous g =
    (inl (if length <? 4 then Error (invalid_length_message None)
          else if excludeAmbiguous
          then TypeError "Cannot read properties of undefined (reading 'replace')"
          else TypeError "Cannot read properties of undefined (reading 'length')"),
     g).
Proof.
  intros Hget. unfold generate. rewrite Hget.
  cbn [truthy negb get_maxLength get_characters gt].
  rewrite orb_false_r. destruct (length <? 4); [reflexivity|].
  destruct excludeAmbiguous; reflexivity.
Qed.

(** The body returns only for a preset and a length within its bounds. *)
Lemma generate_returns (length : Z) (type : string) (excludeAmbiguous : bool)
  (g g' : draws) (d : Data) :
  generate length type excludeAmbiguous g = (inr d, g') ->
  exists config,
    In (type, config) PASSWORD_CONFIGS /\
    4 <= length <= maxLength config /\
    d = data_of length type excludeAmbiguous config g.
Proof.
  intros H. destruct (get PASSWORD_CONFIGS type) as [config|key|] eqn:Hget.
  - destruct (Z.lt_ge_cases length 4) as [Hlo|Hlo].
    { rewrite (generate_invalid_length _ _ _ _ _ Hget) in H by lia. discriminate. }
    destruct (Z.lt_ge_cases (maxLength config) length) as [Hhi|Hhi].
    { rewrite (generate_invalid_length _ _ _ _ _ Hget) in H by lia. discriminate. }
    rewrite (generate_valid _ _ _ _ _ Hget) in H by lia.
    injection H as <- _. exists config. split; [now apply In_get|]. split; [lia | reflexivity].
  - rewrite (generate_inherited _ _ _ _ _ Hget) in H. discriminate.
  - rewrite (generate_undefined _ _ _ _ Hget) in H. discriminate.
Qed.

End Generator.

Section Alphabet.

Lemma delete_all_has_char (a : atom) (s : string) (c : ascii) :
  has_char (delete_all a s) c <-> has_char s c /\ atom_matches a c = false.
Proof.
  unfold has_char. induction s as [|x s IH]; simpl; [tauto|].
  destruct (atom_matches a x) eqn:E; simpl; rewrite IH; split.
  - intros [H1 H2]. auto.
  - intros [[-> | H1] H2]; [congruence | auto].
  - intros [-> | [H1 H2]]; auto.
  - intros [[-> | H1] H2]; auto.
Qed.

Lemma ambiguous_matches (c : ascii) :
  In c ambiguous_characters -> atom_matches ambiguous c = true.
Proof.
  unfold ambiguous_characters. simpl.
  intros H. repeat (destruct H as [<- | H]; [reflexivity|]). destruct H.
Qed.

(** The working alphabet is the preset's, and holds no ambiguous
    character when they are excluded. *)
Lemma resolved_characters_has_char (config : PasswordConfig)
  (excludeAmbiguous : bool) (c : ascii) :
  has_char (resolved_characters config excludeAmbiguous) c ->
  has_char (characters config) c /\
  (excludeAmbiguous = true -> ~ In c ambiguous_characters).
Proof.
  unfold resolved_characters. destruct excludeAmbiguous.
  - rewrite delete_all_has_char. intros [H1 H2]. split; [exact H1|].
    intros _ Hin. apply ambiguous_matches in Hin. congruence.
  - intros H. split; [exact H | discriminate].
Qed.

End Alphabet.

(** C2.  The characters of a password are to come from a source of
    randomness fit for secrets; the generator takes them from
    [Math.random].  For the request [(12, "standard", false)] the call
    succeeds, and its password is spelled by the next twelve results of
    [Math.random()], each scaled by the size of the alphabet and rounded
    down to an index into it. *)
Theorem password_sampled_with_Math_random (now : string) (g : draws) :
  data (fst (generatePassword 12 "standard" false now g)) =
    Some (data_of 12 "standard" false standard g) /\
  d_password (data_of 12 "standard" false standard g) =
    drawn_chars (characters standard) g 12 /\
  drawn_chars (characters standard) g 1 =
    charAt (characters standard)
      (Z.to_nat (Math_floor_times (fst (Math_random g)) 62)).
Proof.
  unfold generatePassword.
  rewrite (generate_valid 12 "standard" false standard g) by (reflexivity || (cbn; lia)).
  repeat split.
  cbn [drawn_chars]. destruct (Math_random g) as [u g']. cbn [fst].
  unfold drawn_char. now rewrite append_nil_r.
Qed.

(** C5.  For a preset of the table and a length from 4 to the preset's
    maximum, the call succeeds and the password it returns has exactly
    the requested length, which is also the [length] it reports. *)
Theorem generated_length (length : Z) (type : string) (config : PasswordConfig)
  (excludeAmbiguous : bool) (now : string) (g : draws) :
  In (type, config) PASSWORD_CONFIGS ->
  4 <= length <= maxLength config ->
  exists d,
    success (fst (generatePassword length type excludeAmbiguous now g)) = true /\
    data (fst (generatePassword length type excludeAmbiguous now g)) = Some d /\
    len (d_password d) = length /\
    d_length d = length.
Proof.
  intros Hin Hlen. unfold generatePassword.
  rewrite (generate_valid length type excludeAmbiguous config g)
    by (now apply In_get || exact Hlen).
  exists (data_of length type excludeAmbiguous config g). cbn [fst success data].
  assert (len (d_password (data_of length type excludeAmbiguous config g)) = length) as L.
  { unfold data_of, len. cbn [d_password].
    rewrite drawn_chars_length by (now apply (resolved_characters_not_empty type)).
    lia. }
  repeat split; exact L.
Qed.

Lemma generated_length_witness :
  In ("simple", simple) PASSWORD_CONFIGS /\
  4 <= 16 <= maxLength simple /\
  exists d,
    success (fst (generatePassword 16 "simple" false "" (fun _ => 0%N))) = true /\
    data (fst (generatePassword 16 "simple" false "" (fun _ => 0%N))) = Some d /\
    len (d_password d) = 16 /\
    d_length d = 16.
Proof.
  assert (In ("simple", simple) PASSWORD_CONFIGS) as Hin by (left; reflexivity).
  assert (4 <= 16 <= maxLength simple) as Hlen by (cbn; lia).
  split; [exact Hin|]. split; [exact Hlen|].
  exact (generated_length 16 "simple" simple false "" (fun _ => 0%N) Hin Hlen).
Defined.

(** C6.  Whenever the call succeeds, the name is a preset of the table
    and every character of the password is a character of the working
    alphabet, hence of the preset's alphabet; with the ambiguous
    characters excluded, the password holds none of [0], [O], [1], [I],
    [l]. *)
Theorem generated_characters (length : Z) (type : string)
  (excludeAmbiguous : bool) (now : string) (g : draws) (d : Data) :
  data (fst (generatePassword length type excludeAmbiguous now g)) = Some d ->
  exists config,
    In (type, config) PASSWORD_CONFIGS /\
    (forall c, has_char (d_password d) c ->
               has_char (resolved_characters config excludeAmbiguous) c) /\
    (forall c, has_char (d_password d) c -> has_char (characters config) c) /\
    (excludeAmbiguous = true ->
     forall c, has_char (d_password d) c -> ~ In c ambiguous_characters).
Proof.
  unfold generatePassword.
  destruct (generate length type excludeAmbiguous g) as [[e|d'] g'] eqn:G;
    cbn [fst data]; [discriminate|].
  intros [= ->]. apply generate_returns in G.
  destruct G as (config & Hin & _ & ->). exists config.
  assert (forall c, has_char (d_password (data_of length type excludeAmbiguous config g)) c ->
                    has_char (resolved_characters config excludeAmbiguous) c) as R.
  { intros c. unfold data_of. cbn [d_password].
    apply drawn_chars_has_char. now apply (resolved_characters_not_empty type). }
  split; [exact Hin|]. split; [exact R|]. split.
  - intros c H. now apply (resolved_characters_has_char config excludeAmbiguous), R.
  - intros E c H. now apply (resolved_characters_has_char config excludeAmbiguous c (R c H)).
Qed.

Lemma generated_characters_witness :
  data (fst (generatePassword 4 "simple" true "" (fun _ => 0%N))) =
    Some (data_of 4 "simple" true simple (fun _ => 0%N)) /\
  exists config,
    In ("simple", config) PASSWORD_CONFIGS /\
    (forall c, has_char (d_password (data_of 4 "simple" true simple (fun _ => 0%N))) c ->
               has_char (resolved_characters config true) c) /\
    (forall c, has_char (d_password (data_of 4 "simple" true simple (fun _ => 0%N))) c ->
               has_char (characters config) c) /\
    (true = true ->
     forall c, has_char (d_password (data_of 4 "simple" true simple (fun _ => 0%N))) c ->
               ~ In c ambiguous_characters).
Proof.
  assert (data (fst (generatePassword 4 "simple" true "" (fun _ => 0%N))) =
          Some (data_of 4 "simple" true simple (fun _ => 0%N))) as H
    by (vm_compute; reflexivity).
  split; [exact H|].
  exact (generated_characters 4 "simple" true "" (fun _ => 0%N) _ H).
Defined.

(** C7.  For a preset of the table, the call succeeds for the lengths 4
    and [maxLength] and fails for the lengths 3 and [maxLength + 1] with
    the length error, whose message names both bounds; in general it
    fails with that error exactly when the length is below 4 or above
    [maxLength], and succeeds exactly when it is not. *)
Theorem length_bounds (type : string) (config : PasswordConfig) (length : Z)
  (excludeAmbiguous : bool) (now : string) (g : draws) :
  In (type, config) PASSWORD_CONFIGS ->
  let result := fun n => fst (generatePassword n type excludeAmbiguous now g) in
  let InvalidLength :=
    Some {| message := "Password length must be between 4 and "
                       ++ of_int (maxLength config) ++ " characters";
            code := "GENERATION_ERROR" |} in
  success (result 4) = true /\
  success (result (maxLength config)) = true /\
  (success (result 3) = false /\ error (result 3) = InvalidLength) /\
  (success (result (maxLength config + 1)) = false /\
   error (result (maxLength config + 1)) = InvalidLength) /\
  (error (result length) = InvalidLength <->
   length < 4 \/ maxLength config < length) /\
  (success (result length) = true <-> 4 <= length <= maxLength config).
Proof.
  intros Hin result InvalidLength.
  assert (get PASSWORD_CONFIGS type = Config config) as Hget by (now apply In_get).
  assert (4 <= maxLength config) as Hmax.
  { unfold PASSWORD_CONFIGS in Hin. simpl in Hin.
    repeat (destruct Hin as [[= <- <-] | Hin]; [cbn; lia|]). destruct Hin. }
  assert (forall n, 4 <= n <= maxLength config ->
                    success (result n) = true /\ error (result n) = None) as Ok.
  { intros n Hn. unfold result, generatePassword.
    rewrite (generate_valid n type excludeAmbiguous config g Hget Hn). split; reflexivity. }
  assert (forall n, n < 4 \/ maxLength config < n ->
                    success (result n) = false /\ error (result n) = InvalidLength) as Ko.
  { intros n Hn. unfold result, generatePassword.
    rewrite (generate_invalid_length n type excludeAmbiguous config g Hget Hn).
    split; reflexivity. }
  split; [apply Ok; lia|]. split; [apply Ok; lia|].
  split; [apply Ko; lia|]. split; [apply Ko; lia|].
  destruct (Z.lt_ge_cases length 4) as [Hlo|Hlo];
    [|destruct (Z.lt_ge_cases (maxLength config) length) as [Hhi|Hhi]].
  - destruct (Ko length) as [S E]; [lia|]. rewrite S, E.
    split; split; intros; try reflexivity; try lia; discriminate.
  - destruct (Ko length) as [S E]; [lia|]. rewrite S, E.
    split; split; intros; try reflexivity; try lia; discriminate.
  - destruct (Ok length) as [S E]; [lia|]. rewrite S, E.
    split; split; intros; try reflexivity; try lia; discriminate.
Qed.

Lemma length_bounds_witness :
  In ("simple", simple) PASSWORD_CONFIGS /\
  success (fst (generatePassword 4 "simple" false "" (fun _ => 0%N))) = true /\
  success (fst (generatePassword 50 "simple" false "" (fun _ => 0%N))) = true /\
  (success (fst (generatePassword 3 "simple" false "" (fun _ => 0%N))) = false /\
   error (fst (generatePassword 3 "simple" false "" (fun _ => 0%N))) =
     Some {| message := "Password length must be between 4 and 50 characters";
             code := "GENERATION_ERROR" |}) /\
  (success (fst (generatePassword 51 "simple" false "" (fun _ => 0%N))) = false /\
   error (fst (generatePassword 51 "simple" false "" (fun _ => 0%N))) =
     Some {| message := "Password length must be between 4 and 50 characters";
             code := "GENERATION_ERROR" |}).
Proof.
  assert (In ("simple", simple) PASSWORD_CONFIGS) as Hin by (left; reflexivity).
  split; [exact Hin|].
  pose proof (length_bounds "simple" simple 7 false "" (fun _ => 0%N) Hin) as H.
  cbv zeta in H. destruct H as (H4 & Hmax & H3 & Hmax1 & _).
  split; [exact H4|]. split; [exact Hmax|]. split; [exact H3 | exact Hmax1].
Defined.

(** C8.  A name outside the table is to be refused with the error that
    lists the valid names; the name [constructor] is not.  It is no
    property of the table itself, yet the read finds it on
    [Object.prototype], the type check lets it through, and the call
    fails further on, with the engine's message for a read on
    [undefined] in place of the list of names. *)
Theorem inherited_name_not_refused (now : string) (g : draws) :
  ~ In "constructor" (keys PASSWORD_CONFIGS) /\
  get PASSWORD_CONFIGS "constructor" = Inherited "constructor" /\
  fst (generatePassword 10 "constructor" false now g) =
    {| success := false;
       data := None;
       error :=
         Some {| message := "Cannot read properties of undefined (reading 'length')";
                 code := "GENERATION_ERROR" |};
       meta := the_meta now |} /\
  invalid_type_message =
    "Invalid password type. Available types: simple, standard, complex, secure" /\
  "Cannot read properties of undefined (reading 'length')" <> invalid_type_message.
Proof.
  split.
  { simpl. intros H. repeat (destruct H as [H | H]; [discriminate|]). destruct H. }
  split; [reflexivity|]. split; [|split; [reflexivity | discriminate]].
  unfold generatePassword.
  rewrite (generate_inherited 10 "constructor" "constructor" false g) by reflexivity.
  reflexivity.
Qed.

(** X3.  A name that neither the table nor [Object.prototype] knows is
    refused with the list of the valid names, whatever the length. *)
Lemma unknown_name_refused (length : Z) (type : string)
  (excludeAmbiguous : bool) (now : string) (g : draws) :
  get PASSWORD_CONFIGS type = Undefined ->
  fst (generatePassword length type excludeAmbiguous now g) =
    {| success := false;
       data := None;
       error :=
         Some {| message :=
                   "Invalid password type. Available types: simple, standard, complex, secure";
                 code := "GENERATION_ERROR" |};
       meta := the_meta now |}.
Proof.
  intros Hget. unfold generatePassword.
  now rewrite (generate_undefined length type excludeAmbiguous g Hget).
Qed.

Lemma unknown_name_refused_witness :
  get PASSWORD_CONFIGS "nonexistent" = Undefined /\
  fst (generatePassword 10 "nonexistent" false "" (fun _ => 0%N)) =
    {| success := false;
       data := None;
       error :=
         Some {| message :=
                   "Invalid password type. Available types: simple, standard, complex, secure";
                 code := "GENERATION_ERROR" |};
       meta := the_meta "" |}.
Proof.
  assert (get PASSWORD_CONFIGS "nonexistent" = Undefined) as H by reflexivity.
  split; [exact H|].
  exact (unknown_name_refused 10 "nonexistent" false "" (fun _ => 0%N) H).
Defined.

(** The four names of the table resolve to their presets. *)
Lemma preset_names_resolve :
  get PASSWORD_CONFIGS "simple" = Config simple /\
  get PASSWORD_CONFIGS "standard" = Config standard /\
  get PASSWORD_CONFIGS "complex" = Config complex /\
  get PASSWORD_CONFIGS "secure" = Config secure.
Proof. repeat split. Qed.

(** On an integer length, a string and a boolean: the result is built
    from what the body of the [try] block returns or throws. *)
Lemma generatePassword_envelope (length : Z) (type : string)
  (excludeAmbiguous : bool) (now : string) (g : draws) :
  let r := fst (generatePassword length type excludeAmbiguous now g) in
  (exists d,
     fst (generate length type excludeAmbiguous g) = inr d /\
     success r = true /\ data r = Some d /\ error r = None) \/
  (exists e,
     fst (generate length type excludeAmbiguous g) = inl e /\
     success r = false /\ data r = None /\
     error r = Some {| message := message_of e; code := "GENERATION_ERROR" |}).
Proof.
  unfold generatePassword.
  destruct (generate length type excludeAmbiguous g) as [[e|d] g']; cbn.
  - right. exists e. repeat split.
  - left. exists d. repeat split.
Qed.

(** X4.  The call succeeds exactly for a preset of the table and a
    length from 4 to the preset's maximum. *)
Theorem success_iff (length : Z) (type : string) (excludeAmbiguous : bool)
  (now : string) (g : draws) :
  success (fst (generatePassword length type excludeAmbiguous now g)) = true <->
  exists config,
    In (type, config) PASSWORD_CONFIGS /\ 4 <= length <= maxLength config.
Proof.
  unfold generatePassword. split.
  - destruct (generate length type excludeAmbiguous g) as [[e|d] g'] eqn:G;
      cbn [fst success]; [discriminate|]. intros _.
    apply generate_returns in G. destruct G as (config & Hin & Hlen & _).
    now exists config.
  - intros (config & Hin & Hlen).
    rewrite (generate_valid length type excludeAmbiguous config g)
      by (now apply In_get || exact Hlen).
    reflexivity.
Qed.

(** The request [(16, "simple", false)] always yields sixteen
    characters, each a lower-case letter or a digit. *)
Theorem simple_16 (now : string) (g : draws) :
  exists d,
    data (fst (generatePassword 16 "simple" false now g)) = Some d /\
    len (d_password d) = 16 /\
    forall c, has_char (d_password d) c ->
              in_range "a" "z" c || in_range "0" "9" c = true.
Proof.
  assert (In ("simple", simple) PASSWORD_CONFIGS) as Hin by (left; reflexivity).
  assert (resolved_characters simple false <> "") as Hne
    by (now apply (resolved_characters_not_empty "simple")).
  exists (data_of 16 "simple" false simple g). unfold generatePassword.
  rewrite (generate_valid 16 "simple" false simple g) by (reflexivity || (cbn; lia)).
  split; [reflexivity|]. unfold data_of. cbn [d_password]. split.
  - unfold len. now rewrite drawn_chars_length.
  - intros c H. apply drawn_chars_has_char in H; [|exact Hne].
    unfold has_char in H. simpl in H.
    repeat (destruct H as [<- | H]; [reflexivity|]). destruct H.
Qed.

(* ================================================================== *)
(** ** What the scorer reports *)

Section Feedback.

Lemma test_atom_any (a : atom) (s : string) :
  test (Atom a) s = any_char (atom_matches a) s.
Proof.
  unfold any_char. induction s as [|x s IH]; [reflexivity|].
  cbn [test list_ascii_of_string existsb]. rewrite IH.
  unfold matches_here. cbn [run]. destruct (atom_matches a x); reflexivity.
Qed.

Lemma any_char_ext (f1 f2 : ascii -> bool) (s : string) :
  (forall c, f1 c = f2 c) -> any_char f1 s = any_char f2 s.
Proof.
  intros E. unfold any_char.
  induction (list_ascii_of_string s) as [|x l IH]; [reflexivity|].
  simpl. now rewrite E, IH.
Qed.

Lemma any_char_false (f : ascii -> bool) (s : string) :
  (forall c, has_char s c -> f c = false) -> any_char f s = false.
Proof.
  unfold any_char, has_char.
  induction (list_ascii_of_string s) as [|x l IH]; intros H; [reflexivity|].
  simpl. rewrite (H x) by now left. apply IH. intros c Hc. apply H. now right.
Qed.

Lemma special_class_matches (c : ascii) :
  atom_matches (Class true [("A", "Z"); ("a", "z"); ("0", "9")]%char) c
  = is_special c.
Proof.
  unfold is_special, is_upper, is_lower, is_digit. cbn [atom_matches existsb fst snd].
  destruct (in_range "A" "Z" c), (in_range "a" "z" c), (in_range "0" "9" c);
    reflexivity.
Qed.

(** The four tests of the variety checks, as scans of the password. *)
Lemma variety_tests (password : string) :
  test lowercase_re password = any_char is_lower password /\
  test uppercase_re password = any_char is_upper password /\
  test digit_re password = any_char is_digit password /\
  test special_re password = any_char is_special password.
Proof.
  unfold lowercase_re, uppercase_re, digit_re, special_re.
  rewrite !test_atom_any. repeat split; apply any_char_ext; intros c;
    first [apply class_matches | apply special_class_matches].
Qed.

Lemma variety_feedback (password : string) :
  snd (variety_checks password) =
    ((if 8 <=? len password then []
      else ["Password should be at least 8 characters long"])
     ++ (if test lowercase_re password then [] else ["Add lowercase letters"])
     ++ (if test uppercase_re password then [] else ["Add uppercase letters"])
     ++ (if test digit_re password then [] else ["Add numbers"])
     ++ (if test special_re password then [] else ["Add special characters"]))%list.
Proof.
  unfold variety_checks.
  destruct (8 <=? len password), (12 <=? len password), (16 <=? len password),
    (test lowercase_re password), (test uppercase_re password),
    (test digit_re password), (test special_re password); reflexivity.
Qed.

Lemma penalties_only_lower (password : string) :
  additive_score password <= fst (variety_checks password).
Proof.
  unfold additive_score, repetition_penalty, sequential_penalty.
  destruct (variety_checks password) as [s f]. cbn [fst].
  destruct (test repetition_re password),
    (test sequential_re (toLowerCase password)); lia.
Qed.

End Feedback.

(** X5.  The feedback of the scorer lists, in this order, what the
    password lacks: the advice on length when it has fewer than 8
    characters, then one entry for each kind of character, lower-case
    letter, upper-case letter, digit, other character, of which it has
    none; nothing else is ever in the list. *)
Theorem feedback_lists_what_is_missing (password : string) :
  feedback (calculatePasswordStrength password) =
    ((if len password <? 8
      then ["Password should be at least 8 characters long"] else [])
     ++ (if any_char is_lower password then [] else ["Add lowercase letters"])
     ++ (if any_char is_upper password then [] else ["Add uppercase letters"])
     ++ (if any_char is_digit password then [] else ["Add numbers"])
     ++ (if any_char is_special password then [] else ["Add special characters"]))%list.
Proof.
  pose proof (variety_feedback password) as F.
  destruct (variety_tests password) as (L & U & D & S).
  unfold calculatePasswordStrength.
  destruct (variety_checks password) as [s f]. cbn [snd] in F. cbn [feedback].
  rewrite F, L, U, D, S. rewrite (Z.ltb_antisym 8 (len password)).
  destruct (8 <=? len password); reflexivity.
Qed.

(** X6.  A password is rated [very_strong] only if it has at least 12
    characters, one of them neither a letter nor a digit, and at most
    one piece of advice is left in its feedback. *)
Theorem very_strong_needs (password : string) :
  level (calculatePasswordStrength password) = very_strong ->
  12 <= len password /\
  any_char is_special password = true /\
  (List.length (feedback (calculatePasswordStrength password)) <= 1)%nat.
Proof.
  pose proof (variety_score password) as V.
  pose proof (variety_feedback password) as F.
  pose proof (penalties_only_lower password) as P.
  destruct (variety_tests password) as (_ & _ & _ & S). rewrite <- S.
  unfold calculatePasswordStrength, additive_score in *.
  destruct (variety_checks password) as [s f]. cbn [fst snd] in *.
  cbn [level feedback]. rewrite F. clear F S.
  set (a := sequential_penalty password (repetition_penalty password s)) in *.
  unfold strengthLevel. destruct (Z.leb_spec 80 a) as [Ha|Ha].
  2:{ repeat match goal with
             | |- context [?x <=? ?y] => destruct (x <=? y)
             end; discriminate. }
  intros _.
  destruct (Z.leb_spec 8 (len password)), (Z.leb_spec 12 (len password)),
    (Z.leb_spec 16 (len password));
    destruct (test lowercase_re password), (test uppercase_re password),
      (test digit_re password), (test special_re password);
    cbn [app List.length]; repeat split; try reflexivity; lia.
Qed.

Lemma very_strong_needs_witness :
  level (calculatePasswordStrength "K7mP@9nX2$vQ8zR!") = very_strong /\
  12 <= len "K7mP@9nX2$vQ8zR!" /\
  any_char is_special "K7mP@9nX2$vQ8zR!" = true /\
  (List.length (feedback (calculatePasswordStrength "K7mP@9nX2$vQ8zR!")) <= 1)%nat.
Proof.
  assert (level (calculatePasswordStrength "K7mP@9nX2$vQ8zR!") = very_strong)
    as H by (vm_compute; reflexivity).
  split; [exact H|]. exact (very_strong_needs "K7mP@9nX2$vQ8zR!" H).
Defined.

(* ================================================================== *)
(** ** The generator and its random source *)

Section Draws.

Lemma after_spec (n : nat) :
  forall (g : draws) (i : nat), after n g i = g (n + i)%nat.
Proof.
  induction n as [|n IH]; intros g i; [reflexivity|].
  cbn [after]. rewrite IH. reflexivity.
Qed.

(** The characters drawn depend on the first [n] draws only. *)
Lemma drawn_chars_ext (chars : string) (n : nat) :
  forall g1 g2 : draws,
    (forall i, (i < n)%nat -> g1 i = g2 i) ->
    drawn_chars chars g1 n = drawn_chars chars g2 n.
Proof.
  induction n as [|n IH]; intros g1 g2 E; [reflexivity|].
  cbn [drawn_chars]. unfold Math_random.
  rewrite (E O) by lia. f_equal.
  apply IH. intros i Hi. apply E. lia.
Qed.

(** The body either returns the data of a valid request, [length]
    draws later, or throws with the generator untouched. *)
Lemma generate_cases (length : Z) (type : string) (excludeAmbiguous : bool)
  (g : draws) :
  (exists config,
     In (type, config) PASSWORD_CONFIGS /\ 4 <= length <= maxLength config /\
     generate length type excludeAmbiguous g =
       (inr (data_of length type excludeAmbiguous config g),
        after (Z.to_nat length) g)) \/
  ((forall config, In (type, config) PASSWORD_CONFIGS ->
                   length < 4 \/ maxLength config < length) /\
   exists e, forall g', generate length type excludeAmbiguous g' = (inl e, g')).
Proof.
  destruct (get PASSWORD_CONFIGS type) as [config|key|] eqn:Hget.
  - destruct (Z.lt_ge_cases length 4) as [Hlo|Hlo];
      [|destruct (Z.lt_ge_cases (maxLength config) length) as [Hhi|Hhi]].
    + right. split.
      * intros c Hc. apply In_get in Hc. left. exact Hlo.
      * eexists. intros g'. apply (generate_invalid_length _ _ _ _ _ Hget). lia.
    + right. split.
      * intros c Hc. apply In_get in Hc. rewrite Hget in Hc.
        injection Hc as <-. right. exact Hhi.
      * eexists. intros g'. apply (generate_invalid_length _ _ _ _ _ Hget). lia.
    + left. exists config. split; [now apply In_get|]. split; [lia|].
      apply (generate_valid _ _ _ _ _ Hget). lia.
  - right. split.
    + intros c Hc. apply In_get in Hc. congruence.
    + eexists. intros g'. apply (generate_inherited _ _ _ _ _ Hget).
  - right. split.
    + intros c Hc. apply In_get in Hc. congruence.
    + eexists. intros g'. apply (generate_undefined _ _ _ _ Hget).
Qed.

(** Every index of an alphabet no larger than the resolution of the
    random numbers is the image of some random number. *)
Lemma index_reachable (i n : Z) :
  0 <= i < n -> n <= resolution ->
  exists u, 0 <= u < resolution /\ Math_floor_times u n = i.
Proof.
  intros Hi Hn. assert (0 < resolution) as R by reflexivity.
  exists ((i * resolution + n - 1) / n).
  assert (0 < n) as Hpos by lia.
  pose proof (Z.div_mod (i * resolution + n - 1) n ltac:(lia)) as D.
  pose proof (Z.mod_pos_bound (i * resolution + n - 1) n Hpos) as M.
  set (q := (i * resolution + n - 1) / n) in *.
  set (r := (i * resolution + n - 1) mod n) in *.
  assert (i * resolution <= q * n < i * resolution + n) as B by lia.
  split.
  - split; [nia|]. nia.
  - unfold Math_floor_times. symmetry.
    apply (Z.div_unique_pos (q * n) resolution i (q * n - i * resolution)); lia.
Qed.

Lemma has_char_get (s : string) (c : ascii) :
  has_char s c -> exists i, (i < String.length s)%nat /\ String.get i s = Some c.
Proof.
  unfold has_char. induction s as [|x s IH]; simpl; [intros []|].
  intros [-> | H].
  - exists O. split; [lia | reflexivity].
  - destruct (IH H) as (i & Hi & E). exists (S i). split; [lia | exact E].
Qed.

(** Every character of such an alphabet is what some draw appends. *)
Lemma drawn_char_reachable (chars : string) (c : ascii) :
  has_char chars c -> len chars <= resolution ->
  exists u : N, drawn_char chars (Z.of_N u mod resolution) = String c "".
Proof.
  intros H Hn. apply has_char_get in H. destruct H as (i & Hi & E).
  destruct (index_reachable (Z.of_nat i) (len chars)) as (u & Hu & F);
    [unfold len; lia | exact Hn|].
  exists (Z.to_N u). rewrite Z2N.id by lia. rewrite Z.mod_small by lia.
  unfold drawn_char, charAt. rewrite F, Nat2Z.id, E. reflexivity.
Qed.

(** Every string over such an alphabet is what some generator spells. *)
Lemma drawn_chars_reachable (chars : string) (w : string) :
  len chars <= resolution ->
  (forall c, has_char w c -> has_char chars c) ->
  exists g, drawn_chars chars g (String.length w) = w.
Proof.
  intros Hn. induction w as [|c w IH]; intros Hw.
  - exists (fun _ => 0%N). reflexivity.
  - destruct IH as (g & Eg).
    { intros a Ha. apply Hw. unfold has_char in *. simpl. now right. }
    destruct (drawn_char_reachable chars c) as (u & Eu); [|exact Hn|].
    { apply Hw. unfold has_char. simpl. now left. }
    exists (cons_draw u g).
    change (drawn_chars chars (cons_draw u g) (String.length (String c w)))
      with (drawn_char chars (Z.of_N u mod resolution)
            ++ drawn_chars chars (fun i => g i) (String.length w)).
    rewrite Eu. simpl. f_equal. exact Eg.
Qed.

Lemma resolved_characters_small (type : string) (config : PasswordConfig)
  (excludeAmbiguous : bool) :
  In (type, config) PASSWORD_CONFIGS ->
  len (resolved_characters config excludeAmbiguous) <= resolution.
Proof.
  intros H. unfold PASSWORD_CONFIGS in H. simpl in H.
  repeat (destruct H as [[= <- <-] | H];
          [destruct excludeAmbiguous; vm_compute; discriminate|]).
  destruct H.
Qed.

End Draws.

(** X7.  A successful call takes exactly [length] numbers from
    [Math.random], and a failing call takes none: the generator a call
    leaves behind gives, as its draw [i], the draw [length + i] of the
    generator the call started from if the call succeeded, and the draw
    [i] if it failed. *)
Theorem generatePassword_consumes (length : Z) (type : string)
  (excludeAmbiguous : bool) (now : string) (g : draws) (i : nat) :
  snd (generatePassword length type excludeAmbiguous now g) i =
    if success (fst (generatePassword length type excludeAmbiguous now g))
    then g (Z.to_nat length + i)%nat
    else g i.
Proof.
  unfold generatePassword.
  destruct (generate_cases length type excludeAmbiguous g)
    as [(config & _ & _ & ->) | (_ & e & E)].
  - cbn [fst snd success]. apply after_spec.
  - rewrite E. reflexivity.
Qed.

(** X8.  The result of a call depends on the random source through its
    first [length] numbers only: two generators that agree on them give
    the same result. *)
Theorem generatePassword_first_draws (length : Z) (type : string)
  (excludeAmbiguous : bool) (now : string) (g1 g2 : draws) :
  (forall i, (i < Z.to_nat length)%nat -> g1 i = g2 i) ->
  fst (generatePassword length type excludeAmbiguous now g1) =
  fst (generatePassword length type excludeAmbiguous now g2).
Proof.
  intros E. unfold generatePassword.
  destruct (generate_cases length type excludeAmbiguous g1)
    as [(config & Hin & Hlen & ->) | (_ & e & F)].
  - rewrite (generate_valid length type excludeAmbiguous config g2)
      by (now apply In_get || exact Hlen).
    cbn [fst]. unfold data_of.
    now rewrite (drawn_chars_ext _ _ g1 g2 E).
  - now rewrite !F.
Qed.

Lemma generatePassword_first_draws_witness :
  (forall i, (i < Z.to_nat 4)%nat ->
             (fun _ : nat => 5%N) i = (fun j : nat => if (j <? 4)%nat then 5%N else 9%N) i) /\
  fst (generatePassword 4 "simple" false "" (fun _ => 5%N)) =
  fst (generatePassword 4 "simple" false ""
         (fun j => if (j <? 4)%nat then 5%N else 9%N)).
Proof.
  assert (forall i, (i < Z.to_nat 4)%nat ->
                    (fun _ : nat => 5%N) i =
                    (fun j : nat => if (j <? 4)%nat then 5%N else 9%N) i) as H.
  { intros i Hi. cbn beta. destruct (Nat.ltb_spec i 4) as [_|Hge]; [reflexivity|].
    change (Z.to_nat 4) with 4%nat in Hi. lia. }
  split; [exact H|].
  exact (generatePassword_first_draws 4 "simple" false "" _ _ H).
Defined.

(** X9.  Nothing over the working alphabet is out of reach: for a
    preset of the table, every string of a valid length whose characters
    all belong to the working alphabet is the password of a successful
    call, for some state of the random source. *)
Theorem every_password_reachable (type : string) (config : PasswordConfig)
  (excludeAmbiguous : bool) (now : string) (w : string) :
  In (type, config) PASSWORD_CONFIGS ->
  4 <= len w <= maxLength config ->
  (forall c, has_char w c ->
             has_char (resolved_characters config excludeAmbiguous) c) ->
  exists g d,
    data (fst (generatePassword (len w) type excludeAmbiguous now g)) = Some d /\
    d_password d = w.
Proof.
  intros Hin Hlen Hw.
  destruct (drawn_chars_reachable (resolved_characters config excludeAmbiguous) w)
    as (g & Eg); [now apply (resolved_characters_small type) | exact Hw|].
  exists g, (data_of (len w) type excludeAmbiguous config g).
  unfold generatePassword.
  rewrite (generate_valid (len w) type excludeAmbiguous config g)
    by (now apply In_get || exact Hlen).
  split; [reflexivity|]. unfold data_of. cbn [d_password].
  unfold len. now rewrite Nat2Z.id.
Qed.

Lemma every_password_reachable_witness :
  In ("simple", simple) PASSWORD_CONFIGS /\
  4 <= len "k9k9" <= maxLength simple /\
  (forall c, has_char "k9k9" c -> has_char (resolved_characters simple true) c) /\
  exists g d,
    data (fst (generatePassword (len "k9k9") "simple" true "" g)) = Some d /\
    d_password d = "k9k9".
Proof.
  assert (In ("simple", simple) PASSWORD_CONFIGS) as Hin by (left; reflexivity).
  assert (4 <= len "k9k9" <= maxLength simple) as Hlen by (vm_compute; split; discriminate).
  assert (forall c, has_char "k9k9" c ->
                    has_char (resolved_characters simple true) c) as Hw.
  { intros c H. unfold has_char in *. simpl in H.
    repeat (destruct H as [<- | H]; [vm_compute; tauto|]). destruct H. }
  split; [exact Hin|]. split; [exact Hlen|]. split; [exact Hw|].
  exact (every_password_reachable "simple" simple true "" "k9k9" Hin Hlen Hw).
Defined.

Section GeneratedStrength.

Lemma calculatePasswordStrength_parts (password : string) :
  calculatePasswordStrength password =
    {| score := Z.max 0 (Z.min 100 (additive_score password));
       level := strengthLevel (additive_score password);
       feedback := snd (variety_checks password) |}.
Proof.
  unfold calculatePasswordStrength, additive_score.
  destruct (variety_checks password) as [s f]. reflexivity.
Qed.

(** The password of a successful call is made of characters of the
    preset the name resolves to. *)
Lemma generated_from_preset (length : Z) (type : string)
  (excludeAmbiguous : bool) (now : string) (g : draws) (d : Data) :
  data (fst (generatePassword length type excludeAmbiguous now g)) = Some d ->
  exists config,
    get PASSWORD_CONFIGS type = Config config /\
    d_strength d = calculatePasswordStrength (d_password d) /\
    forall c, has_char (d_password d) c -> has_char (characters config) c.
Proof.
  unfold generatePassword.
  destruct (generate length type excludeAmbiguous g) as [[e|d'] g'] eqn:G;
    cbn [fst data]; [discriminate|].
  intros [= ->]. apply generate_returns in G.
  destruct G as (config & Hin & _ & ->). exists config.
  split; [now apply In_get|]. split; [reflexivity|].
  intros c H. unfold data_of in H. cbn [d_password] in H.
  apply drawn_chars_has_char in H;
    [|now apply (resolved_characters_not_empty type)].
  now apply (resolved_characters_has_char config excludeAmbiguous).
Qed.

Lemma no_backslash (type : string) (config : PasswordConfig) :
  get PASSWORD_CONFIGS type = Config config ->
  ~ has_char (characters config) "\".
Proof.
  intros H. apply In_get in H. unfold PASSWORD_CONFIGS in H. simpl in H.
  unfold has_char.
  repeat (destruct H as [[= <- <-] | H];
          [simpl; intros K; repeat (destruct K as [K | K]; [discriminate|]);
           destruct K|]).
  destruct H.
Qed.

Lemma simple_characters (c : ascii) :
  has_char (characters simple) c -> is_upper c = false /\ is_special c = false.
Proof.
  unfold has_char. simpl. intros H.
  repeat (destruct H as [<- | H]; [split; reflexivity|]). destruct H.
Qed.

Lemma standard_characters (c : ascii) :
  has_char (characters standard) c -> is_special c = false.
Proof.
  unfold has_char. simpl. intros H.
  repeat (destruct H as [<- | H]; [reflexivity|]). destruct H.
Qed.

End GeneratedStrength.

(** X10.  No generated password is ever charged the repetition penalty:
    the pattern of the check needs a backslash, and no preset has one. *)
Theorem generated_no_repetition_penalty (length : Z) (type : string)
  (excludeAmbiguous : bool) (now : string) (g : draws) (d : Data) (points : Z) :
  data (fst (generatePassword length type excludeAmbiguous now g)) = Some d ->
  repetition_penalty (d_password d) points = points.
Proof.
  intros H. apply generated_from_preset in H.
  destruct H as (config & Hget & _ & Hc).
  unfold repetition_penalty.
  destruct (test repetition_re (d_password d)) eqn:T; [|reflexivity].
  exfalso. apply test_iff in T. destruct T as (pre & suf & E & T).
  apply repetition_re_here in T. destruct T as (c & rest & _ & ->).
  apply (no_backslash type config Hget), Hc. rewrite E.
  apply has_char_append. right. unfold has_char. simpl. auto.
Qed.

Lemma generated_no_repetition_penalty_witness :
  data (fst (generatePassword 4 "secure" false "" (fun _ => 0%N))) =
    Some (data_of 4 "secure" false secure (fun _ => 0%N)) /\
  repetition_penalty (d_password (data_of 4 "secure" false secure (fun _ => 0%N))) 40
  = 40.
Proof.
  assert (data (fst (generatePassword 4 "secure" false "" (fun _ => 0%N))) =
          Some (data_of 4 "secure" false secure (fun _ => 0%N))) as H
    by (vm_compute; reflexivity).
  split; [exact H|].
  exact (generated_no_repetition_penalty 4 "secure" false "" (fun _ => 0%N) _ 40 H).
Defined.

(** X11.  The presets without special characters cap the rating.  A
    password generated with [simple] always gets the advice to add
    upper-case letters and special characters and a score of at most 60;
    one generated with [standard] always gets the advice to add special
    characters and a score of at most 70; neither is ever rated
    [very_strong]. *)
Theorem presets_cap_the_rating (length : Z) (type : string)
  (excludeAmbiguous : bool) (now : string) (g : draws) (d : Data) :
  data (fst (generatePassword length type excludeAmbiguous now g)) = Some d ->
  (type = "simple" ->
   In "Add uppercase letters" (feedback (d_strength d)) /\
   In "Add special characters" (feedback (d_strength d)) /\
   score (d_strength d) <= 60) /\
  (type = "standard" ->
   In "Add special characters" (feedback (d_strength d)) /\
   score (d_strength d) <= 70) /\
  (type = "simple" \/ type = "standard" ->
   level (d_strength d) <> very_strong).
Proof.
  intros H. apply generated_from_preset in H.
  destruct H as (config & Hget & -> & Hc).
  set (p := d_password d) in *.
  rewrite calculatePasswordStrength_parts. cbn [score level feedback].
  pose proof (variety_score p) as V. pose proof (variety_feedback p) as F.
  pose proof (penalties_only_lower p) as P.
  destruct (variety_tests p) as (_ & U & _ & S).
  assert (type = "simple" ->
          test uppercase_re p = false /\ test special_re p = false) as Hs.
  { intros ->. change (get PASSWORD_CONFIGS "simple") with (Config simple) in Hget.
    injection Hget as <-. rewrite U, S.
    split; apply any_char_false; intros c K; now apply simple_characters, Hc. }
  assert (type = "standard" -> test special_re p = false) as Ht.
  { intros ->. change (get PASSWORD_CONFIGS "standard") with (Config standard) in Hget.
    injection Hget as <-. rewrite S.
    apply any_char_false; intros c K; now apply standard_characters, Hc. }
  assert (test special_re p = false -> additive_score p <= 70) as B70.
  { intros E. rewrite E in V.
    repeat match type of V with
           | context [if ?b then _ else _] => destruct b
           end; lia. }
  assert (test special_re p = false ->
          In "Add special characters" (snd (variety_checks p))) as Fs.
  { intros E. rewrite F, E. rewrite !in_app_iff. do 4 right. now left. }
  assert (test special_re p = false ->
          strengthLevel (additive_score p) <> very_strong) as L.
  { intros E. specialize (B70 E). unfold strengthLevel.
    destruct (Z.leb_spec 80 (additive_score p)); [lia|].
    repeat match goal with
           | |- context [?x <=? ?y] => destruct (x <=? y)
           end; discriminate. }
  split; [|split].
  - intros T. destruct (Hs T) as [Eu Es]. split; [|split].
    + rewrite F, Eu. rewrite !in_app_iff. do 2 right. left. now left.
    + now apply Fs.
    + rewrite Eu, Es in V.
      repeat match type of V with
             | context [if ?b then _ else _] => destruct b
             end; lia.
  - intros T. specialize (Ht T). split; [now apply Fs|]. specialize (B70 Ht). lia.
  - intros [T | T]; apply L; [now apply Hs | now apply Ht].
Qed.

Lemma presets_cap_the_rating_witness :
  data (fst (generatePassword 16 "simple" false "" (fun _ => 0%N))) =
    Some (data_of 16 "simple" false simple (fun _ => 0%N)) /\
  In "Add special characters"
     (feedback (d_strength (data_of 16 "simple" false simple (fun _ => 0%N)))) /\
  score (d_strength (data_of 16 "simple" false simple (fun _ => 0%N))) <= 60.
Proof.
  assert (data (fst (generatePassword 16 "simple" false "" (fun _ => 0%N))) =
          Some (data_of 16 "simple" false simple (fun _ => 0%N))) as H
    by (vm_compute; reflexivity).
  split; [exact H|].
  destruct (presets_cap_the_rating 16 "simple" false "" (fun _ => 0%N) _ H)
    as (S & _ & _).
  destruct (S eq_refl) as (_ & A & B). split; [exact A | exact B].
Defined.

(* ================================================================== *)
(** ** The routes *)

Section Routes.

Lemma later_spec (n : nat) :
  forall (t : clock) (i : nat), later n t i = t (n + i)%nat.
Proof.
  induction n as [|n IH]; intros t i; [reflexivity|].
  cbn [later]. rewrite IH. reflexivity.
Qed.

(** A valid request: the call succeeds with the data the draws spell. *)
Lemma generatePassword_valid (length : Z) (type : string)
  (excludeAmbiguous : bool) (config : PasswordConfig) (now : string) (g : draws) :
  In (type, config) PASSWORD_CONFIGS ->
  4 <= length <= maxLength config ->
  generatePassword length type excludeAmbiguous now g =
    ({| success := true;
        data := Some (data_of length type excludeAmbiguous config g);
        error := None;
        meta := the_meta now |}, after (Z.to_nat length) g).
Proof.
  intros Hin Hlen. unfold generatePassword.
  now rewrite (generate_valid length type excludeAmbiguous config g)
    by (now apply In_get || exact Hlen).
Qed.

(** Any other request: the call fails and leaves the generator alone. *)
Lemma generatePassword_invalid (length : Z) (type : string)
  (excludeAmbiguous : bool) (now : string) (g : draws) :
  (forall config, In (type, config) PASSWORD_CONFIGS ->
                  length < 4 \/ maxLength config < length) ->
  success (fst (generatePassword length type excludeAmbiguous now g)) = false /\
  snd (generatePassword length type excludeAmbiguous now g) = g.
Proof.
  intros Hbad. unfold generatePassword.
  destruct (generate_cases length type excludeAmbiguous g)
    as [(config & Hin & Hlen & _) | (_ & e & E)].
  - destruct (Hbad config Hin); lia.
  - rewrite E. split; reflexivity.
Qed.

(** A request is valid or it is not. *)
Lemma valid_or_not (length : Z) (type : string) :
  (exists config,
     In (type, config) PASSWORD_CONFIGS /\ 4 <= length <= maxLength config) \/
  (forall config, In (type, config) PASSWORD_CONFIGS ->
                  length < 4 \/ maxLength config < length).
Proof.
  destruct (generate_cases length type false (fun _ => 0%N))
    as [(config & Hin & Hlen & _) | (Hbad & _)].
  - left. now exists config.
  - right. exact Hbad.
Qed.

Lemma valid_not_invalid (length : Z) (type : string) (config : PasswordConfig) :
  In (type, config) PASSWORD_CONFIGS -> 4 <= length <= maxLength config ->
  ~ (forall c, In (type, c) PASSWORD_CONFIGS -> length < 4 \/ maxLength c < length).
Proof. intros Hin Hlen Hbad. destruct (Hbad config Hin); lia. Qed.

Lemma data_of_ext (length : Z) (type : string) (excludeAmbiguous : bool)
  (config : PasswordConfig) (g1 g2 : draws) :
  (forall i, g1 i = g2 i) ->
  data_of length type excludeAmbiguous config g1 =
  data_of length type excludeAmbiguous config g2.
Proof.
  intros E. unfold data_of.
  rewrite (drawn_chars_ext _ _ g1 g2); [reflexivity|]. intros i _. apply E.
Qed.

(** The loop of the batch on a valid request: [k] more entries, [k]
    readings of the clock, [k] times [length] draws. *)
Lemma generate_batch_valid (length : Z) (type : string)
  (exclude_ambiguous : bool) (config : PasswordConfig) :
  In (type, config) PASSWORD_CONFIGS ->
  4 <= length <= maxLength config ->
  forall (k : nat) (passwords : list (option Data)) (t : clock) (g : draws),
  exists g',
    generate_batch k length type exclude_ambiguous passwords t g =
      (inr (passwords ++ batch_of k length type exclude_ambiguous config g)%list,
       later k t, g') /\
    forall i, g' i = g (k * Z.to_nat length + i)%nat.
Proof.
  intros Hin Hlen. induction k as [|k IH]; intros passwords t g.
  - exists g. cbn [generate_batch batch_of later]. rewrite app_nil_r.
    split; reflexivity.
  - cbn [generate_batch batch_of later]. unfold Date_now at 1.
    rewrite (generatePassword_valid length type exclude_ambiguous config _ g Hin Hlen).
    cbn [success data].
    destruct (IH (push passwords (Some (data_of length type exclude_ambiguous config g)))
                 (fun i => t (S i)) (after (Z.to_nat length) g)) as (g' & E & Hg').
    exists g'. split.
    + rewrite E. unfold push, Date_now. cbn [snd]. now rewrite <- app_assoc.
    + intros i. rewrite Hg', after_spec. f_equal. lia.
Qed.

Lemma batch_of_length (k : nat) (length : Z) (type : string)
  (excludeAmbiguous : bool) (config : PasswordConfig) (g : draws) :
  List.length (batch_of k length type excludeAmbiguous config g) = k.
Proof.
  revert g. induction k as [|k IH]; intros g; [reflexivity|].
  cbn [batch_of List.length]. now rewrite IH.
Qed.

Lemma batch_of_nth (length : Z) (type : string) (excludeAmbiguous : bool)
  (config : PasswordConfig) (k : nat) :
  forall (g : draws) (j : nat),
    (j < k)%nat ->
    nth_error (batch_of k length type excludeAmbiguous config g) j =
      Some (Some (data_of length type excludeAmbiguous config
                    (after (j * Z.to_nat length) g))).
Proof.
  induction k as [|k IH]; intros g j Hj; [lia|].
  destruct j as [|j]; [reflexivity|].
  cbn [batch_of nth_error]. rewrite IH by lia. do 2 f_equal.
  apply data_of_ext. intros i. rewrite !after_spec. f_equal. lia.
Qed.

End Routes.

(** X12.  [GET /generate] answers 200 or 400, and 200 exactly when the
    [length] parameter (12 when absent) starts with an integer that
    [parseInt] reads, the [type] parameter ([standard] when absent) is a
    preset of the table, and the integer lies between 4 and the preset's
    maximum.  The error [INVALID_LENGTH] is the answer exactly when
    [parseInt] reads no integer, and a request answered 400 has drawn
    nothing from the random source. *)
Theorem get_generate_status (q : Query) (t : clock) (g : draws) :
  let length := default (q_length q) "12" in
  let type := default (q_type q) "standard" in
  let r := fst (fst (get_generate q t g)) in
  (status r = 200 <->
   exists n config,
     parseInt length = Some n /\
     In (type, config) PASSWORD_CONFIGS /\ 4 <= n <= maxLength config) /\
  (status r = 200 \/ status r = 400) /\
  (parseInt length = None <->
   body r = RouteError "Length must be a valid number" "INVALID_LENGTH"
                       (Some (t O))) /\
  (status r = 400 -> snd (get_generate q t g) = g).
Proof.
  cbv zeta. unfold get_generate.
  change (of_int 12) with "12".
  set (length := default (q_length q) "12").
  set (type := default (q_type q) "standard").
  set (ex := (toLowerCase (default (q_exclude_ambiguous q) "false") =? "true")%string).
  destruct (parseInt length) as [n|].
  - unfold Date_now. destruct (valid_or_not n type) as [(config & Hin & Hlen) | Hbad].
    + rewrite (generatePassword_valid n type ex config _ g Hin Hlen).
      cbn [success fst snd status body]. repeat split; try discriminate.
      * intros _. now exists n, config.
      * now left.
    + destruct (generatePassword_invalid n type ex (t O) g Hbad) as [Hs Hg].
      destruct (generatePassword n type ex (t O) g) as [e g'].
      cbn [fst snd] in Hs, Hg. rewrite Hs. cbn [fst snd status body].
      repeat split; try discriminate.
      * intros (n' & config & [= <-] & Hin & Hlen).
        now destruct (valid_not_invalid n type config Hin Hlen).
      * now right.
      * intros _. exact Hg.
  - unfold Date_now. cbn [fst snd status body]. repeat split; try discriminate.
    + intros (n & config & E & _). discriminate.
    + now right.
Qed.

(** X13.  When [GET /generate] is given a length that [parseInt] reads
    as [n], a preset and [n] within its bounds, the answer is 200 with a
    password of exactly [n] characters of the preset's alphabet, none of
    them ambiguous when [exclude_ambiguous] is [true] in any letter case;
    the answer echoes the type and whether the flag was recognised, and
    exactly [n] numbers are drawn from the random source. *)
Theorem get_generate_ok (q : Query) (t : clock) (g : draws)
  (n : Z) (config : PasswordConfig) :
  let length := default (q_length q) "12" in
  let type := default (q_type q) "standard" in
  let flag := default (q_exclude_ambiguous q) "false" in
  parseInt length = Some n ->
  In (type, config) PASSWORD_CONFIGS ->
  4 <= n <= maxLength config ->
  exists d,
    fst (fst (get_generate q t g)) =
      {| status := 200;
         body := Result {| success := true;
                           data := Some d;
                           error := None;
                           meta := the_meta (t O) |} |} /\
    len (d_password d) = n /\
    d_length d = n /\
    d_type d = type /\
    d_excludedAmbiguous d = String.eqb (toLowerCase flag) "true" /\
    (forall c, has_char (d_password d) c ->
               has_char (characters config) c /\
               (toLowerCase flag = "true" -> ~ In c ambiguous_characters)) /\
    (forall i, snd (get_generate q t g) i = g (Z.to_nat n + i)%nat).
Proof.
  cbv zeta. intros Hparse Hin Hlen. unfold get_generate.
  change (of_int 12) with "12". rewrite Hparse.
  set (type := default (q_type q) "standard") in *.
  set (flag := default (q_exclude_ambiguous q) "false").
  set (ex := (toLowerCase flag =? "true")%string).
  unfold Date_now.
  rewrite (generatePassword_valid n type ex config _ g Hin Hlen).
  cbn [success fst snd].
  exists (data_of n type ex config g).
  assert (resolved_characters config ex <> "") as Hne
    by (now apply (resolved_characters_not_empty type)).
  assert (len (d_password (data_of n type ex config g)) = n) as L.
  { unfold data_of, len. cbn [d_password]. rewrite drawn_chars_length by exact Hne. lia. }
  split; [reflexivity|]. split; [exact L|]. split; [exact L|].
  split; [reflexivity|]. split; [reflexivity|]. split.
  - intros c H. unfold data_of in H. cbn [d_password] in H.
    apply drawn_chars_has_char in H; [|exact Hne].
    apply resolved_characters_has_char in H. destruct H as [H1 H2].
    split; [exact H1|]. intros E. apply H2. unfold ex. rewrite E. reflexivity.
  - intros i. apply after_spec.
Qed.

Lemma get_generate_ok_witness :
  parseInt "8 chars" = Some 8 /\
  In ("simple", simple) PASSWORD_CONFIGS /\
  4 <= 8 <= maxLength simple /\
  exists d,
    fst (fst (get_generate
                {| q_length := Some "8 chars"; q_type := Some "simple";
                   q_exclude_ambiguous := Some "True" |}
                (fun _ => "") (fun _ => 0%N))) =
      {| status := 200;
         body := Result {| success := true;
                           data := Some d;
                           error := None;
                           meta := the_meta "" |} |} /\
    len (d_password d) = 8 /\
    d_excludedAmbiguous d = true.
Proof.
  assert (parseInt "8 chars" = Some 8) as Hp by reflexivity.
  assert (In ("simple", simple) PASSWORD_CONFIGS) as Hin by (left; reflexivity).
  assert (4 <= 8 <= maxLength simple) as Hlen by (cbn; lia).
  split; [exact Hp|]. split; [exact Hin|]. split; [exact Hlen|].
  destruct (get_generate_ok
              {| q_length := Some "8 chars"; q_type := Some "simple";
                 q_exclude_ambiguous := Some "True" |}
              (fun _ => "") (fun _ => 0%N) 8 simple Hp Hin Hlen)
    as (d & E & L & _ & _ & X & _).
  exists d. split; [exact E|]. split; [exact L | exact X].
Defined.

(** X14.  [POST /generate] answers 200 or 400, and 200 exactly when
    [count] (1 when absent) is at most 10 and either is not positive or
    the request is valid, that is [type] ([standard] when absent) is a
    preset and [length] (12 when absent) lies between 4 and the preset's
    maximum.  More than 10 is refused with [BATCH_LIMIT_EXCEEDED] whatever
    the rest of the request, and exactly then; a [count] of zero or less
    is answered with an empty list even when the type or the length is
    invalid; otherwise an invalid request is answered with the failure of
    the first call of [generatePassword].  A request answered 400 has
    drawn nothing from the random source. *)
Theorem post_generate_status (b : PostBody) (t : clock) (g : draws) :
  let length := default (b_length b) 12 in
  let type := default (b_type b) "standard" in
  let exclude_ambiguous := default (b_exclude_ambiguous b) false in
  let count := default (b_count b) 1 in
  let r := fst (fst (post_generate b t g)) in
  (status r = 200 <->
   count <= 10 /\
   (count <= 0 \/
    exists config,
      In (type, config) PASSWORD_CONFIGS /\ 4 <= length <= maxLength config)) /\
  (status r = 200 \/ status r = 400) /\
  (10 < count <->
   body r = RouteError "Cannot generate more than 10 passwords at once"
                       "BATCH_LIMIT_EXCEEDED" None) /\
  (count <= 0 -> body r = Batch (Many []) 0 (the_meta (t O))) /\
  (status r = 400 -> count <= 10 ->
   body r = Result (fst (generatePassword length type exclude_ambiguous (t O) g))) /\
  (status r = 400 -> snd (post_generate b t g) = g).
Proof.
  cbv zeta. unfold post_generate.
  set (length := default (b_length b) 12).
  set (type := default (b_type b) "standard").
  set (ex := default (b_exclude_ambiguous b) false).
  set (count := default (b_count b) 1).
  destruct (Z.ltb_spec 10 count) as [Hbig|Hsmall].
  { cbn [fst snd status body]. repeat split; try discriminate; lia. }
  destruct (Z.to_nat count) as [|k] eqn:K.
  { assert (count <= 0) as Hc by lia.
    cbn [generate_batch]. unfold Date_now. cbn [fst snd status body List.length].
    replace (count =? 1) with false by (symmetry; apply Z.eqb_neq; lia).
    repeat split; try discriminate; try lia; auto. }
  assert (0 < count) as Hc by lia.
  destruct (valid_or_not length type) as [(config & Hin & Hlen) | Hbad].
  - destruct (generate_batch_valid length type ex config Hin Hlen (S k) [] t g)
      as (g' & -> & _).
    unfold Date_now. cbn [fst snd status body].
    repeat split; try discriminate; try lia.
    right. now exists config.
  - cbn [generate_batch]. unfold Date_now.
    destruct (generatePassword_invalid length type ex (t O) g Hbad) as [Hs Hg].
    destruct (generatePassword length type ex (t O) g) as [e g'].
    cbn [fst snd] in Hs, Hg. rewrite Hs. cbn [fst snd status body].
    repeat split; try discriminate; try lia.
    + intros (_ & [Hle | (config & Hin & Hlen)]); [lia|].
      now destruct (valid_not_invalid length type config Hin Hlen).
    + intros _. exact Hg.
Qed.

(** X15.  A valid batch: for [count] at most 10, a preset and a length
    within its bounds, [POST /generate] answers 200 with [count] entries
    (none when [count] is not positive), reported as such in the [count]
    field, as a single object when [count] is 1 and as a list otherwise.
    Entry [j] is the data of a call of its own, made on the random source
    as the [j] calls before it left it, so it has the requested length;
    the whole batch draws [count] times [length] numbers. *)
Theorem post_generate_batch (b : PostBody) (t : clock) (g : draws)
  (config : PasswordConfig) :
  let length := default (b_length b) 12 in
  let type := default (b_type b) "standard" in
  let exclude_ambiguous := default (b_exclude_ambiguous b) false in
  let count := default (b_count b) 1 in
  let k := Z.to_nat count in
  let n := Z.to_nat length in
  count <= 10 ->
  In (type, config) PASSWORD_CONFIGS ->
  4 <= length <= maxLength config ->
  exists passwords,
    fst (fst (post_generate b t g)) =
      {| status := 200;
         body := Batch (if count =? 1 then One (first_of passwords)
                        else Many passwords)
                       (Z.max 0 count)
                       (the_meta (t k)) |} /\
    List.length passwords = k /\
    (forall j, (j < k)%nat ->
       nth_error passwords j =
         Some (Some (data_of length type exclude_ambiguous config
                       (after (j * n) g))) /\
       len (d_password (data_of length type exclude_ambiguous config
                          (after (j * n) g))) = length) /\
    (count = 1 ->
     first_of passwords = Some (data_of length type exclude_ambiguous config g)) /\
    (forall i, snd (post_generate b t g) i = g (k * n + i)%nat).
Proof.
  cbv zeta. intros Hcount Hin Hlen. unfold post_generate.
  set (length := default (b_length b) 12) in *.
  set (type := default (b_type b) "standard") in *.
  set (ex := default (b_exclude_ambiguous b) false).
  set (count := default (b_count b) 1) in *.
  replace (10 <? count) with false by (symmetry; apply Z.ltb_ge; lia).
  destruct (generate_batch_valid length type ex config Hin Hlen
              (Z.to_nat count) [] t g) as (g' & -> & Hg').
  cbn [app]. unfold Date_now. cbn [fst snd].
  exists (batch_of (Z.to_nat count) length type ex config g).
  rewrite batch_of_length, later_spec, Nat.add_0_r.
  replace (Z.of_nat (Z.to_nat count)) with (Z.max 0 count) by lia.
  split; [reflexivity|]. split; [reflexivity|]. split; [|split].
  - intros j Hj. split; [now apply batch_of_nth|].
    unfold data_of, len. cbn [d_password].
    rewrite drawn_chars_length
      by (now apply (resolved_characters_not_empty type)). lia.
  - intros ->. reflexivity.
  - exact Hg'.
Qed.

Lemma post_generate_batch_witness :
  3 <= 10 /\
  In ("complex", complex) PASSWORD_CONFIGS /\
  4 <= 6 <= maxLength complex /\
  exists passwords,
    fst (fst (post_generate
                {| b_length := Some 6; b_type := Some "complex";
                   b_exclude_ambiguous := None; b_count := Some 3 |}
                (fun _ => "") (fun _ => 0%N))) =
      {| status := 200;
         body := Batch (Many passwords) 3 (the_meta "") |} /\
    List.length passwords = 3%nat.
Proof.
  assert (In ("complex", complex) PASSWORD_CONFIGS) as Hin
    by (right; right; left; reflexivity).
  assert (4 <= 6 <= maxLength complex) as Hlen by (cbn; lia).
  assert (3 <= 10) as Hc by lia.
  split; [exact Hc|]. split; [exact Hin|]. split; [exact Hlen|].
  destruct (post_generate_batch
              {| b_length := Some 6; b_type := Some "complex";
                 b_exclude_ambiguous := None; b_count := Some 3 |}
              (fun _ => "") (fun _ => 0%N) complex Hc Hin Hlen)
    as (passwords & E & L & _).
  exists passwords. split; [exact E | exact L].
Defined.

(** X16.  The two routes agree.  For the same length, type and flag, on
    the same random source, [POST /generate] asked for one password
    answers with the status of [GET /generate]; when that is 200 the
    single object of the batch is the data of the other answer, and when
    it is 400 the two bodies are the same failure. *)
Theorem get_post_agree (s : string) (n : Z) (type : option string)
  (flag : option string) (exclude_ambiguous : option bool)
  (count : option Z) (t : clock) (g : draws) :
  parseInt s = Some n ->
  default exclude_ambiguous false =
    String.eqb (toLowerCase (default flag "false")) "true" ->
  default count 1 = 1 ->
  let r_get :=
    fst (fst (get_generate
                {| q_length := Some s; q_type := type;
                   q_exclude_ambiguous := flag |} t g)) in
  let r_post :=
    fst (fst (post_generate
                {| b_length := Some n; b_type := type;
                   b_exclude_ambiguous := exclude_ambiguous;
                   b_count := count |} t g)) in
  status r_post = status r_get /\
  (status r_get = 200 ->
   exists d e, body r_get = Result e /\ data e = Some d /\
               exists m, body r_post = Batch (One (Some d)) 1 m) /\
  (status r_get = 400 -> body r_post = body r_get).
Proof.
  intros Hparse Hflag Hcount. cbv zeta.
  unfold get_generate, post_generate.
  cbn [q_length q_type q_exclude_ambiguous b_length b_type b_exclude_ambiguous
       b_count default]. fold (default type "standard").
  fold (default flag "false"). fold (default exclude_ambiguous false).
  fold (default count 1). rewrite Hparse, Hcount, Hflag.
  set (ty := default type "standard").
  set (ex := (toLowerCase (default flag "false") =? "true")%string).
  change (10 <? 1) with false. change (Z.to_nat 1) with 1%nat.
  cbn [generate_batch]. unfold Date_now.
  destruct (valid_or_not n ty) as [(config & Hin & Hlen) | Hbad].
  - rewrite (generatePassword_valid n ty ex config _ g Hin Hlen).
    cbn [success data fst snd status body push app first_of List.length].
    split; [reflexivity|]. split; [|discriminate].
    intros _. eexists. eexists. split; [reflexivity|]. split; [reflexivity|].
    eexists. reflexivity.
  - destruct (generatePassword_invalid n ty ex (t O) g Hbad) as [Hs _].
    destruct (generatePassword n ty ex (t O) g) as [e g'].
    cbn [fst] in Hs. rewrite Hs. cbn [fst snd status body].
    split; [reflexivity|]. split; [discriminate | reflexivity].
Qed.

Lemma get_post_agree_witness :
  parseInt "10" = Some 10 /\
  status (fst (fst (post_generate
                      {| b_length := Some 10; b_type := Some "secure";
                         b_exclude_ambiguous := Some true; b_count := None |}
                      (fun _ => "") (fun _ => 7%N)))) =
  status (fst (fst (get_generate
                      {| q_length := Some "10"; q_type := Some "secure";
                         q_exclude_ambiguous := Some "TRUE" |}
                      (fun _ => "") (fun _ => 7%N)))).
Proof.
  assert (parseInt "10" = Some 10) as Hp by reflexivity.
  split; [exact Hp|].
  exact (proj1 (get_post_agree "10" 10 (Some "secure") (Some "TRUE") (Some true)
                  None (fun _ => "") (fun _ => 7%N) Hp eq_refl eq_refl)).
Defined.

(* ================================================================== *)
(** ** [generatePassword] on any arguments *)

Section AnyArgumentsFacts.

Variable NumberToString : number -> string.
Variable StringToNumber : string -> number.

Let to_string := ToString NumberToString.
Let to_number := ToNumber NumberToString StringToNumber.
Let generate_any' := generate_any NumberToString StringToNumber.

Lemma lt_of_Z (a b : Z) : lt (of_Z a) (of_Z b) = (a <? b).
Proof.
  unfold lt, of_Z, QArith_base.Qle_bool, QArith_base.inject_Z. cbn.
  rewrite !Z.mul_1_r. now rewrite Z.ltb_antisym.
Qed.

Lemma iterations_of_Z (n : Z) :
  n <= 2 ^ 53 -> iterations (of_Z n) = Some (Z.to_nat n).
Proof.
  intros H. unfold iterations, of_Z, QArith_base.Qle_bool, QArith_base.inject_Z.
  cbn [QArith_base.Qnum QArith_base.Qden]. rewrite !Z.mul_1_r.
  replace (n <=? 2 ^ 53) with true by (symmetry; now apply Z.leb_le).
  unfold Qround.Qceiling, Qround.Qfloor, QArith_base.Qopp. cbn.
  rewrite Z.div_1_r. now rewrite Z.opp_involutive.
Qed.

(** A number the length check lets through, against a bound of at most
    [2^53], makes the loop end. *)
Lemma iterations_checked (n : number) (m : Z) :
  m <= 2 ^ 53 ->
  lt n (of_Z 4) = false -> lt (of_Z m) n = false ->
  exists count, iterations n = Some count.
Proof.
  intros Hm H4 Hmax. destruct n as [q| | |].
  - unfold iterations. unfold lt, of_Z in Hmax.
    apply negb_false_iff, QArith_base.Qle_bool_iff in Hmax.
    assert (QArith_base.Qle_bool q (QArith_base.inject_Z (2 ^ 53)) = true) as ->.
    { apply QArith_base.Qle_bool_iff.
      apply (QArith_base.Qle_trans _ _ _ Hmax).
      rewrite <- QArith_base.Zle_Qle. exact Hm. }
    eexists. reflexivity.
  - eexists. reflexivity.
  - discriminate.
  - discriminate.
Qed.

Lemma preset_maxLength_small (key : string) (config : PasswordConfig) :
  get PASSWORD_CONFIGS key = Config config -> maxLength config <= 2 ^ 53.
Proof.
  intros H. apply In_get in H. unfold PASSWORD_CONFIGS in H. simpl in H.
  repeat (destruct H as [[= <- <-] | H]; [cbn; lia|]). destruct H.
Qed.

(** The sampling loop throws nothing. *)
Lemma lift_sample (chars : string) (count : nat) (g : draws) :
  lift (sample chars (len chars) count "") g =
    (Returns (drawn_chars chars g count), after count g).
Proof. unfold lift. now rewrite sample_eq. Qed.

(** The type cannot be converted: the conversion's error is thrown. *)
Lemma generate_any_no_key (length type excludeAmbiguous : jsvalue)
  (e : thrown) (g : draws) :
  to_string type = inl e ->
  generate_any' length type excludeAmbiguous g = (Throws (ErrorObject e), g).
Proof.
  intros H. unfold generate_any', generate_any. fold to_string.
  rewrite H. reflexivity.
Qed.

(** The name is unknown altogether. *)
Lemma generate_any_undefined (length type excludeAmbiguous : jsvalue)
  (key : string) (g : draws) :
  to_string type = inr key ->
  get PASSWORD_CONFIGS key = Undefined ->
  generate_any' length type excludeAmbiguous g =
    (Throws (ErrorObject (Error invalid_type_message)), g).
Proof.
  intros H Hget. unfold generate_any', generate_any. fold to_string.
  rewrite H. unfold bindC, convert, retC. now rewrite Hget.
Qed.

(** The length cannot be converted. *)
Lemma generate_any_no_number (length type excludeAmbiguous : jsvalue)
  (key : string) (e : thrown) (g : draws) :
  to_string type = inr key ->
  get PASSWORD_CONFIGS key <> Undefined ->
  to_number length = inl e ->
  generate_any' length type excludeAmbiguous g = (Throws (ErrorObject e), g).
Proof.
  intros H Hget Hn. unfold generate_any', generate_any. fold to_string to_number.
  rewrite H, Hn. unfold bindC, convert, retC, throwC.
  destruct (get PASSWORD_CONFIGS key); [reflexivity | reflexivity | congruence].
Qed.

(** The name is found on [Object.prototype]. *)
Lemma generate_any_inherited (length type excludeAmbiguous : jsvalue)
  (key inherited : string) (n : number) (g : draws) :
  to_string type = inr key ->
  get PASSWORD_CONFIGS key = Inherited inherited ->
  to_number length = inr n ->
  exists e, generate_any' length type excludeAmbiguous g = (Throws (ErrorObject e), g).
Proof.
  intros H Hget Hn. unfold generate_any', generate_any. fold to_string to_number.
  rewrite H, Hn. unfold bindC, convert, retC, throwC. rewrite Hget.
  cbn [truthy negb get_maxLength get_characters].
  destruct (lt n (of_Z 4)); [eexists; reflexivity|].
  destruct (ToBoolean excludeAmbiguous); eexists; reflexivity.
Qed.

(** The name is a preset and the length is refused. *)
Lemma generate_any_invalid_length (length type excludeAmbiguous : jsvalue)
  (key : string) (config : PasswordConfig) (n : number) (g : draws) :
  to_string type = inr key ->
  get PASSWORD_CONFIGS key = Config config ->
  to_number length = inr n ->
  lt n (of_Z 4) || lt (of_Z (maxLength config)) n = true ->
  generate_any' length type excludeAmbiguous g =
    (Throws (ErrorObject (Error (invalid_length_message (Some (maxLength config))))),
     g).
Proof.
  intros H Hget Hn Hbad. unfold generate_any', generate_any.
  fold to_string to_number.
  rewrite H, Hn. unfold bindC, convert, retC, throwC. rewrite Hget.
  cbn [truthy negb get_maxLength get_characters].
  destruct (lt n (of_Z 4)); [reflexivity|]. cbn [orb] in Hbad.
  now rewrite Hbad.
Qed.

(** The name is a preset and the length is let through. *)
Lemma generate_any_valid (length type excludeAmbiguous : jsvalue)
  (key : string) (config : PasswordConfig) (n : number) (count : nat)
  (g : draws) :
  to_string type = inr key ->
  get PASSWORD_CONFIGS key = Config config ->
  to_number length = inr n ->
  lt n (of_Z 4) = false -> lt (of_Z (maxLength config)) n = false ->
  iterations n = Some count ->
  generate_any' length type excludeAmbiguous g =
    (let password :=
       drawn_chars (resolved_characters config (ToBoolean excludeAmbiguous)) g count in
     Returns {| j_password := password;
                j_length := len password;
                j_type := type;
                j_strength := calculatePasswordStrength password;
                j_excludedAmbiguous := excludeAmbiguous |},
     after count g).
Proof.
  intros H Hget Hn H4 Hmax Hit. unfold generate_any', generate_any.
  fold to_string to_number.
  rewrite H, Hn. unfold bindC, convert, retC, throwC. rewrite Hget.
  cbn [truthy negb get_maxLength get_characters]. rewrite H4, Hmax, Hit.
  unfold resolved_characters.
  destruct (ToBoolean excludeAmbiguous); cbn [read ret lift];
    rewrite lift_sample; reflexivity.
Qed.

(** What the body of the [try] block does, case by case: it returns for
    a valid request and throws an error object for any other. *)
Lemma generate_any_cases (length type excludeAmbiguous : jsvalue) (g : draws) :
  (exists config d g',
     valid_any NumberToString StringToNumber length type config /\
     generate_any' length type excludeAmbiguous g = (Returns d, g')) \/
  ((forall config, ~ valid_any NumberToString StringToNumber length type config) /\
   exists e, generate_any' length type excludeAmbiguous g = (Throws (ErrorObject e), g)).
Proof.
  destruct (to_string type) as [e|key] eqn:K.
  { right. split.
    - intros config (key & n & K' & _). unfold to_string in K. congruence.
    - exists e. now apply generate_any_no_key. }
  assert (forall config,
            valid_any NumberToString StringToNumber length type config ->
            get PASSWORD_CONFIGS key = Config config /\
            exists n, to_number length = inr n /\
                      lt n (of_Z 4) = false /\
                      lt (of_Z (maxLength config)) n = false) as Inv.
  { intros config (key' & n & K' & Hin & Hn & H4 & Hmax).
    unfold to_string in K. rewrite K in K'. injection K' as <-.
    split; [now apply In_get|]. now exists n. }
  destruct (get PASSWORD_CONFIGS key) as [config|inherited|] eqn:Hget.
  - destruct (to_number length) as [e|n] eqn:N.
    { right. split.
      - intros c Hc. destruct (Inv c Hc) as (_ & n & Hn & _). discriminate.
      - exists e. apply (generate_any_no_number _ _ _ key); [exact K | congruence | exact N]. }
    destruct (lt n (of_Z 4) || lt (of_Z (maxLength config)) n) eqn:Hbad.
    + right. split.
      * intros c Hc. destruct (Inv c Hc) as (E & n' & Hn & H4 & Hmax).
        injection E as <-. injection Hn as <-. rewrite H4, Hmax in Hbad. discriminate.
      * eexists. now apply (generate_any_invalid_length _ _ _ key config n).
    + apply orb_false_iff in Hbad. destruct Hbad as [H4 Hmax].
      destruct (iterations_checked n (maxLength config)) as (count & Hit);
        [now apply (preset_maxLength_small key) | exact H4 | exact Hmax|].
      left. exists config. eexists. eexists. split.
      * exists key, n. split; [exact K|]. split; [now apply In_get|].
        split; [exact N|]. split; [exact H4 | exact Hmax].
      * now apply (generate_any_valid _ _ _ key config n count).
  - right. split.
    + intros c Hc. destruct (Inv c Hc) as (E & _). discriminate.
    + destruct (to_number length) as [e|n] eqn:N.
      * exists e. apply (generate_any_no_number _ _ _ key); [exact K | congruence | exact N].
      * now apply (generate_any_inherited _ _ _ key inherited n).
  - right. split.
    + intros c Hc. destruct (Inv c Hc) as (E & _). discriminate.
    + eexists. now apply (generate_any_undefined _ _ _ key).
Qed.

End AnyArgumentsFacts.

(** C10.  [generatePassword] returns on every argument a request can
    hold, whatever the conversions of the engine yield and whatever the
    state of the random source: the call neither lets an exception out
    nor fails to end.  What it returns is a result with [success] true,
    the data and no error, or one with [success] false, no data and an
    error that has a message, a string, and the code [GENERATION_ERROR].
    The first is the case exactly when the request is valid, that is the
    type names a preset and the length is neither below 4 nor above the
    preset's maximum; every other request, one whose type or length
    cannot be converted included, ends in the second. *)
Theorem generatePassword_never_throws
  (NumberToString : number -> string) (StringToNumber : string -> number)
  (length type excludeAmbiguous : jsvalue) (now : string) (g : draws) :
  exists (r : JsEnvelope) (g' : draws),
    generatePassword_any NumberToString StringToNumber
      length type excludeAmbiguous now g = (Returns r, g') /\
    j_meta r = the_meta now /\
    ((j_success r = true /\ (exists d, j_data r = Some d) /\ j_error r = None) \/
     (j_success r = false /\ j_data r = None /\
      exists m, j_error r =
                  Some {| j_message := JString m; j_code := "GENERATION_ERROR" |})) /\
    (j_success r = true <->
     exists config,
       valid_any NumberToString StringToNumber
         (or_default length (JNumber (of_Z 12)))
         (or_default type (JString "standard")) config).
Proof.
  unfold generatePassword_any, try_catch, bindC.
  destruct (generate_any_cases NumberToString StringToNumber
              (or_default length (JNumber (of_Z 12)))
              (or_default type (JString "standard"))
              (or_default excludeAmbiguous (JBool false)) g)
    as [(config & d & g' & Hv & ->) | (Hbad & e & ->)].
  - eexists. eexists. split; [reflexivity|]. cbn [j_success j_data j_error j_meta].
    split; [reflexivity|]. split.
    + left. split; [reflexivity|]. split; [now exists d | reflexivity].
    + split; [intros _; now exists config | reflexivity].
  - cbn [get_message retC]. eexists. eexists. split; [reflexivity|].
    cbn [j_success j_data j_error j_meta].
    split; [reflexivity|]. split.
    + right. split; [reflexivity|]. split; [reflexivity|]. now exists (message_of e).
    + split; [discriminate|]. intros (config & Hv). now destruct (Hbad config).
Qed.

Section TypedArguments.

Variable NumberToString : number -> string.
Variable StringToNumber : string -> number.

(** On an integer length, a string and a boolean, the function on any
    arguments is the typed one. *)
Lemma generatePassword_any_typed (length : Z) (type : string)
  (excludeAmbiguous : bool) (now : string) (g : draws) :
  generatePassword_any NumberToString StringToNumber
    (JNumber (of_Z length)) (JString type) (JBool excludeAmbiguous) now g =
  (Returns (any_envelope (fst (generatePassword length type excludeAmbiguous now g))),
   snd (generatePassword length type excludeAmbiguous now g)).
Proof.
  unfold generatePassword_any, try_catch, bindC, generatePassword. cbn [or_default].
  destruct (get PASSWORD_CONFIGS type) as [config|inherited|] eqn:Hget.
  - destruct ((length <? 4) || (maxLength config <? length)) eqn:Hbad.
    + rewrite (generate_any_invalid_length NumberToString StringToNumber
                 _ _ _ type config (of_Z length))
        by (reflexivity || exact Hget || now rewrite !lt_of_Z).
      rewrite (generate_invalid_length length type excludeAmbiguous config g Hget)
        by (apply orb_true_iff in Hbad; now rewrite !Z.ltb_lt in Hbad).
      reflexivity.
    + apply orb_false_iff in Hbad. destruct Hbad as [H4 Hmax].
      pose proof (preset_maxLength_small type config Hget) as Hsmall.
      rewrite Z.ltb_ge in H4, Hmax.
      rewrite (generate_any_valid NumberToString StringToNumber
                 _ _ _ type config (of_Z length) (Z.to_nat length))
        by (reflexivity || exact Hget || (rewrite lt_of_Z; now apply Z.ltb_ge)
            || (apply iterations_of_Z; lia)).
      rewrite (generate_valid length type excludeAmbiguous config g Hget) by lia.
      reflexivity.
  - rewrite (generate_inherited length type inherited excludeAmbiguous g Hget).
    unfold generate_any, bindC, convert, retC, throwC. cbn [ToString ToNumber].
    rewrite Hget. cbn [truthy negb get_maxLength get_characters].
    rewrite lt_of_Z. destruct (length <? 4); [reflexivity|].
    destruct excludeAmbiguous; reflexivity.
  - rewrite (generate_any_undefined NumberToString StringToNumber
               _ _ _ type) by (reflexivity || exact Hget).
    rewrite (generate_undefined length type excludeAmbiguous g Hget).
    reflexivity.
Qed.

End TypedArguments.
